(** * Ranking chart layout engine (layout.py): embedding and properties

    The development follows [VisualizationLayout] of [src/layout.py]
    method by method.  Conventions of the embedding:

    - a pandas DataFrame is the list of its rows, in frame order; a row is
      an [Entry] record with one field per configured column;
    - the configured column names are taken to be pairwise distinct, so a
      column key is a constructor of [SortKey] or [SearchKey];
    - Python floats are idealised as exact rationals ([Q]); integer
      columns are [Z];
    - the object's attributes are the fields of [Layout]; a method is a
      function from [Layout] to [Layout], and a method that can raise
      returns the exception beside the state it leaves behind;
    - strings are taken to be ASCII text. *)

From Stdlib Require Import ZArith QArith Qround Lqa Lia List String Ascii Bool.
From stdpp Require Import base list sorting.
Import ListNotations.
Local Open Scope Z_scope.

(** ** Exceptions *)

Inductive PyError := KeyError | IndexError | ZeroDivisionError.

Inductive result (A : Type) :=
| Ok (a : A)
| Raise (e : PyError).
Arguments Ok {A} a.
Arguments Raise {A} e.

Definition bind {A B} (r : result A) (k : A -> result B) : result B :=
  match r with
  | Ok a => k a
  | Raise e => Raise e
  end.

Notation "x <-! r ;; k" := (bind r (fun x => k))
  (at level 100, r at next level, right associativity).

(** ** Data model *)

(** One row of the input table.  [postcode] is read only when the table has
    the postcode column. *)
Record Entry := {
  region : string;
  postcode : string;
  primary_incidence : Z;
  secondary_incidence : Z;
  time_safe : Z;
  percent_change : Z }.

(** The input table: its rows, and whether the optional postcode column is
    among its columns ([self.postcode_key in self.input_table.columns]). *)
Record Table := {
  has_postcode : bool;
  rows : list Entry }.

Inductive SortKey := TimeSafeKey | PrimaryIncidenceKey | SecondaryIncidenceKey.
Inductive SearchKey := RegionKey | PostcodeKey.
Inductive Direction := Leftward | Rightward.

Definition SortKey_eqb (a b : SortKey) : bool :=
  match a, b with
  | TimeSafeKey, TimeSafeKey => true
  | PrimaryIncidenceKey, PrimaryIncidenceKey => true
  | SecondaryIncidenceKey, SecondaryIncidenceKey => true
  | _, _ => false
  end.

(** [df[key]] for a numeric column. *)
Definition column (k : SortKey) (e : Entry) : Z :=
  match k with
  | TimeSafeKey => time_safe e
  | PrimaryIncidenceKey => primary_incidence e
  | SecondaryIncidenceKey => secondary_incidence e
  end.

(** The four points of a polyline, [[p0, p1, p2, p3]]. *)
Record Points := { p0 : Q; p1 : Q; p2 : Q; p3 : Q }.

(** One index of the plot-data map of [__new_plot_data_map__]: the cells
    of the parallel lists at that index; [None] is Python's [None]. *)
Record PlotRow := {
  line_x_points : option Points;
  line_y_points : option Points;
  text_x : option Q;
  text_y : option Q;
  region_name : option string;
  category : option nat;
  postcode_cell : option string;
  datum_cell : option Z }.

Module Cfg.
(** The constructor's arguments that the engine reads. *)
Record t := {
  labels : list string;
  lower_bounds : list Z;
  calc_with_secondary_incidence : list bool;
  y_range : Q * Q;
  min_space_x : Q;
  min_space_y : Q;
  total_display_regions : Z;
  min_display_regions : Z }.
End Cfg.

(** The attributes of a [VisualizationLayout] object. *)
Record Layout := {
  input_table : Table;
  num_categories : nat;
  lower_bounds : list Z;
  calc_with_secondary_incidence : list bool;
  total_display_regions : Z;
  min_display_regions : Z;
  min_space_x : Q;
  min_space_y : Q;
  y_range : Q * Q;
  ratios : list Q;
  categorized_entries : list (list Entry);
  display_regions : list (list Entry);
  sort_criterias : list SortKey;
  last_searched : string;
  source : list PlotRow;
  searched_source : list PlotRow }.

Definition set_y_range (v : Q * Q) (s : Layout) : Layout :=
  {| input_table := input_table s; num_categories := num_categories s;
     lower_bounds := lower_bounds s;
     calc_with_secondary_incidence := calc_with_secondary_incidence s;
     total_display_regions := total_display_regions s;
     min_display_regions := min_display_regions s;
     min_space_x := min_space_x s; min_space_y := min_space_y s;
     y_range := v; ratios := ratios s;
     categorized_entries := categorized_entries s;
     display_regions := display_regions s;
     sort_criterias := sort_criterias s; last_searched := last_searched s;
     source := source s; searched_source := searched_source s |}.

Definition set_ratios (v : list Q) (s : Layout) : Layout :=
  {| input_table := input_table s; num_categories := num_categories s;
     lower_bounds := lower_bounds s;
     calc_with_secondary_incidence := calc_with_secondary_incidence s;
     total_display_regions := total_display_regions s;
     min_display_regions := min_display_regions s;
     min_space_x := min_space_x s; min_space_y := min_space_y s;
     y_range := y_range s; ratios := v;
     categorized_entries := categorized_entries s;
     display_regions := display_regions s;
     sort_criterias := sort_criterias s; last_searched := last_searched s;
     source := source s; searched_source := searched_source s |}.

Definition set_categorized_entries (v : list (list Entry)) (s : Layout) : Layout :=
  {| input_table := input_table s; num_categories := num_categories s;
     lower_bounds := lower_bounds s;
     calc_with_secondary_incidence := calc_with_secondary_incidence s;
     total_display_regions := total_display_regions s;
     min_display_regions := min_display_regions s;
     min_space_x := min_space_x s; min_space_y := min_space_y s;
     y_range := y_range s; ratios := ratios s;
     categorized_entries := v;
     display_regions := display_regions s;
     sort_criterias := sort_criterias s; last_searched := last_searched s;
     source := source s; searched_source := searched_source s |}.

Definition set_display_regions (v : list (list Entry)) (s : Layout) : Layout :=
  {| input_table := input_table s; num_categories := num_categories s;
     lower_bounds := lower_bounds s;
     calc_with_secondary_incidence := calc_with_secondary_incidence s;
     total_display_regions := total_display_regions s;
     min_display_regions := min_display_regions s;
     min_space_x := min_space_x s; min_space_y := min_space_y s;
     y_range := y_range s; ratios := ratios s;
     categorized_entries := categorized_entries s;
     display_regions := v;
     sort_criterias := sort_criterias s; last_searched := last_searched s;
     source := source s; searched_source := searched_source s |}.

Definition set_sort_criterias (v : list SortKey) (s : Layout) : Layout :=
  {| input_table := input_table s; num_categories := num_categories s;
     lower_bounds := lower_bounds s;
     calc_with_secondary_incidence := calc_with_secondary_incidence s;
     total_display_regions := total_display_regions s;
     min_display_regions := min_display_regions s;
     min_space_x := min_space_x s; min_space_y := min_space_y s;
     y_range := y_range s; ratios := ratios s;
     categorized_entries := categorized_entries s;
     display_regions := display_regions s;
     sort_criterias := v; last_searched := last_searched s;
     source := source s; searched_source := searched_source s |}.

Definition set_last_searched (v : string) (s : Layout) : Layout :=
  {| input_table := input_table s; num_categories := num_categories s;
     lower_bounds := lower_bounds s;
     calc_with_secondary_incidence := calc_with_secondary_incidence s;
     total_display_regions := total_display_regions s;
     min_display_regions := min_display_regions s;
     min_space_x := min_space_x s; min_space_y := min_space_y s;
     y_range := y_range s; ratios := ratios s;
     categorized_entries := categorized_entries s;
     display_regions := display_regions s;
     sort_criterias := sort_criterias s; last_searched := v;
     source := source s; searched_source := searched_source s |}.

Definition set_sources (v w : list PlotRow) (s : Layout) : Layout :=
  {| input_table := input_table s; num_categories := num_categories s;
     lower_bounds := lower_bounds s;
     calc_with_secondary_incidence := calc_with_secondary_incidence s;
     total_display_regions := total_display_regions s;
     min_display_regions := min_display_regions s;
     min_space_x := min_space_x s; min_space_y := min_space_y s;
     y_range := y_range s; ratios := ratios s;
     categorized_entries := categorized_entries s;
     display_regions := display_regions s;
     sort_criterias := sort_criterias s; last_searched := last_searched s;
     source := v; searched_source := w |}.

(** ** pandas operations used by the engine *)

(** Row equality as [pd.merge] sees it: equality on every column the
    frames have. *)
Definition same_row (pc : bool) (a b : Entry) : bool :=
  String.eqb (region a) (region b)
  && (negb pc || String.eqb (postcode a) (postcode b))
  && (primary_incidence a =? primary_incidence b)
  && (secondary_incidence a =? secondary_incidence b)
  && (time_safe a =? time_safe b)
  && (percent_change a =? percent_change b).

(** [pd.merge(left, right, indicator=True, how='outer')
       .query('_merge=="left_only"').drop('_merge', axis=1)]:
    the rows of [left] that equal no row of [right].  (The order pandas
    gives the kept rows is not modelled; they are kept in [left]'s order.) *)
Definition left_only (pc : bool) (left right : list Entry) : list Entry :=
  List.filter (fun e => negb (existsb (same_row pc e) right)) left.

(** [df.head(n)], also for negative [n] (all but the last [-n] rows). *)
Definition head {A} (n : Z) (df : list A) : list A :=
  if 0 <=? n then take (Z.to_nat n) df
  else take (length df - Z.to_nat (- n))%nat df.

(** [df.tail(n)] for [n >= 0]. *)
Definition tail {A} (n : nat) (df : list A) : list A :=
  drop (length df - n)%nat df.

(** [df.sort_values(by, ascending)]: rows ordered by the column, equal keys
    in frame order. *)
Definition key_le (ascending : bool) (x y : Z) : bool :=
  if ascending then x <=? y else y <=? x.

Fixpoint insert_sorted (k : SortKey) (ascending : bool) (e : Entry)
    (l : list Entry) : list Entry :=
  match l with
  | [] => [e]
  | x :: l' =>
      if key_le ascending (column k e) (column k x) && negb (column k e =? column k x)
      then e :: l
      else x :: insert_sorted k ascending e l'
  end.

Definition sort_values (k : SortKey) (ascending : bool) (df : list Entry)
    : list Entry :=
  fold_left (fun acc e => insert_sorted k ascending e acc) df [].

(** [series.max()] and [series.min()]; on an empty series pandas gives NaN,
    which no caller of the engine reads, rendered here as [0]. *)
Definition col_max (l : list Z) : Z :=
  match l with
  | [] => 0
  | x :: l' => fold_left Z.max l' x
  end.

Definition col_min (l : list Z) : Z :=
  match l with
  | [] => 0
  | x :: l' => fold_left Z.min l' x
  end.

(** [str.isnumeric()] on ASCII text. *)
Definition is_digit (c : ascii) : bool :=
  let n := nat_of_ascii c in (48 <=? n)%nat && (n <=? 57)%nat.

Fixpoint all_digits (s : string) : bool :=
  match s with
  | EmptyString => true
  | String c s' => is_digit c && all_digits s'
  end.

Definition isnumeric (s : string) : bool :=
  negb (String.eqb s "") && all_digits s.

(** ** Categorizer *)

Definition get_incidence_key (st : Layout) (category_index : nat) : SortKey :=
  if nth category_index (calc_with_secondary_incidence st) false
  then SecondaryIncidenceKey
  else PrimaryIncidenceKey.

(** The row mask of the first loop of [__categorize_entries__]. *)
Definition in_category (st : Layout) (i : nat) (e : Entry) : bool :=
  let x := column (get_incidence_key st i) e in
  let lo := nth i (lower_bounds st) 0 in
  let hi := nth (S i) (lower_bounds st) 0 in
  (lo <=? x) && ((x <? hi) || ((lo =? hi) && (x =? hi))).

(** The second loop: [for i in reversed(range(1, n))]. *)
Definition resolve_ties (pc : bool) (n : nat) (pools : list (list Entry))
    : list (list Entry) :=
  fold_left
    (fun ce i => <[i := left_only pc (nth i ce []) (nth (i - 1) ce [])]> ce)
    (rev (seq 1 (n - 1)))
    pools.

Definition categorize_entries (st : Layout) : result Layout :=
  let n := num_categories st in
  if (length (calc_with_secondary_incidence st) <? n)%nat
     || (length (lower_bounds st) <? S n)%nat
  then Raise IndexError
  else
    let pools :=
      map (fun i => List.filter (in_category st i) (rows (input_table st)))
          (seq 0 n) in
    Ok (set_categorized_entries
          (resolve_ties (has_postcode (input_table st)) n pools) st).

(** ** Proportion calculator *)

Definition calculate_ratios (st : Layout) : result Layout :=
  let num_entries := length (rows (input_table st)) in
  if (0 <? num_categories st)%nat && (num_entries =? 0)%nat
  then Raise ZeroDivisionError
  else
    Ok (set_ratios
          (map (fun i =>
                  (inject_Z (Z.of_nat (length (nth i (categorized_entries st) [])))
                   / inject_Z (Z.of_nat num_entries))%Q)
               (seq 0 (num_categories st)))
          st).

Definition init_sorting_criteria (st : Layout) : Layout :=
  set_sort_criterias
    (map (fun i => if (i =? 0)%nat then TimeSafeKey else get_incidence_key st i)
         (seq 0 (num_categories st)))
    st.

(** ** Display selector *)

Definition get_num_display_regions_for_category (st : Layout)
    (category_index : nat) : Z :=
  Z.max (Qfloor (inject_Z (total_display_regions st)
                 * nth category_index (ratios st) 0%Q))
        (min_display_regions st).

(** The body of the loop of [__build_display_regions__] at index [i]. *)
Definition select_display (st : Layout) (i : nat) : list Entry :=
  let criteria := nth i (sort_criterias st) TimeSafeKey in
  let sort_ascending := negb (SortKey_eqb criteria TimeSafeKey) in
  let sorted_entries :=
    sort_values criteria sort_ascending (nth i (categorized_entries st) []) in
  let shown := head (get_num_display_regions_for_category st i) sorted_entries in
  if Z.of_nat (length sorted_entries) >? get_num_display_regions_for_category st i
  then head (-1) shown ++ tail 1 sorted_entries
  else shown.

Definition select_step (s : Layout) (i : nat) : Layout :=
  set_display_regions (<[i := select_display s i]> (display_regions s)) s.

Definition build_display_regions (st : Layout) : Layout :=
  fold_left select_step (seq 0 (num_categories st)) st.

(** ** Search injector *)

(** [df[search_type]]: a [KeyError] when the column is not in the frame. *)
Definition text_column (t : Table) (k : SearchKey) : result (Entry -> string) :=
  match k with
  | RegionKey => Ok region
  | PostcodeKey => if has_postcode t then Ok postcode else Raise KeyError
  end.

Definition matching (col : Entry -> string) (query : string)
    (df : list Entry) : list Entry :=
  List.filter (fun e => String.eqb (col e) query) df.

(** The loop of [__add_searched_region__] over the remaining categories
    [idxs]; the result carries the exception, if one was raised. *)
Fixpoint search_categories (query : string) (search_type : SearchKey)
    (idxs : list nat) (st : Layout) : Layout * option PyError :=
  match idxs with
  | [] => (st, None)
  | i :: rest =>
      match text_column (input_table st) search_type with
      | Raise e => (st, Some e)
      | Ok col =>
          let searched_region_entry :=
            matching col query (nth i (categorized_entries st) []) in
          if negb (String.eqb query "")
             && negb (length searched_region_entry =? 0)%nat
             && (length (matching col query (nth i (display_regions st) [])) =? 0)%nat
          then
            let criteria := nth i (sort_criterias st) TimeSafeKey in
            let appended := nth i (display_regions st) [] ++ searched_region_entry in
            (set_display_regions
               (<[i := sort_values criteria
                         (SortKey_eqb criteria (get_incidence_key st i))
                         appended]> (display_regions st))
               st, None)
          else search_categories query search_type rest st
      end
  end.

Definition add_searched_region (query : string) (st : Layout)
    : Layout * option PyError :=
  let st := set_last_searched query st in
  let search_type := if isnumeric query then PostcodeKey else RegionKey in
  search_categories query search_type (seq 0 (num_categories st)) st.

(** ** Range auto-expander *)

Definition Qltb (x y : Q) : bool := negb (Qle_bool y x).

Definition attempt_adjust_y_range (y_value : Q) (st : Layout) : Layout :=
  if Qltb y_value (fst (y_range st))
  then set_y_range (y_value - (snd (y_range st) - 1), snd (y_range st))%Q st
  else st.

(** ** Branch resolver *)

Definition is_branched (ys : Points) : bool := negb (Qeq_bool (p1 ys) (p2 ys)).

(** The four in-place updates of one iteration, by direction. *)
Definition shift (direction : Direction) (adjustment : Q) (r : PlotRow) : PlotRow :=
  {| line_x_points :=
       option_map
         (fun xs =>
            match direction with
            | Leftward =>
                {| p0 := p0 xs + adjustment; p1 := p1 xs + adjustment;
                   p2 := p2 xs + adjustment; p3 := p3 xs |}
            | Rightward =>
                {| p0 := p0 xs; p1 := p1 xs + adjustment;
                   p2 := p2 xs + adjustment; p3 := p3 xs + adjustment |}
            end%Q)
         (line_x_points r);
     line_y_points := line_y_points r;
     text_x := option_map (fun x => x + adjustment)%Q (text_x r);
     text_y := text_y r;
     region_name := region_name r; category := category r;
     postcode_cell := postcode_cell r; datum_cell := datum_cell r |}.

(** One iteration of the loop of [__adjust_branches__]: the row at the
    current index and [consecutive_branches] before it, to the row and the
    counter after it.  The two line cells of a row are [None] together in
    every map the engine builds. *)
Definition adjust_step (min_space_x : Q) (direction : Direction)
    (r : PlotRow) (consecutive_branches : Z) : PlotRow * Z :=
  match line_x_points r, line_y_points r with
  | Some _, Some ys =>
      let is_b := is_branched ys in
      let '(r', consecutive_branches') :=
        if negb (Z.lor (Z.b2z is_b) consecutive_branches =? 0)
        then
          let adjustment := (min_space_x * inject_Z consecutive_branches)%Q in
          let adjustment :=
            match direction with
            | Leftward => (adjustment * -1)%Q
            | Rightward => adjustment
            end in
          (shift direction adjustment r, consecutive_branches + 1)
        else (r, consecutive_branches) in
      (r', if negb is_b then 0 else consecutive_branches')
  | _, _ => (r, consecutive_branches)
  end.

(** [for i in reversed(range(len(data)))]: the rows after the head are
    visited first, and hand their counter to the head. *)
Fixpoint adjust_from_last (min_space_x : Q) (direction : Direction)
    (data : list PlotRow) : list PlotRow * Z :=
  match data with
  | [] => ([], 0)
  | r :: rest =>
      let '(rest', consecutive_branches) :=
        adjust_from_last min_space_x direction rest in
      let '(r', consecutive_branches') :=
        adjust_step min_space_x direction r consecutive_branches in
      (r' :: rest', consecutive_branches')
  end.

Definition adjust_branches (st : Layout) (data : list PlotRow)
    (direction : Direction) : list PlotRow :=
  fst (adjust_from_last (min_space_x st) direction data).

(** ** Plot-data builder *)

(** The variables of the two loops of [__build_plot_data__] that an
    iteration reads and writes; [last_text_y = None] is [float('inf')]. *)
Record Pass := {
  last_text_y : option Q;
  pass_layout : Layout;
  plot_data : list PlotRow }.

(** The body of the inner loop, for one displayed row. *)
Definition place_region (category_i : nat) (sort_criteria : SortKey)
    (box_top_y box_size padding : Q) (top_region_datum bot_region_datum : Z)
    (p : Pass) (e : Entry) : Pass :=
  let st := pass_layout p in
  let datum := column sort_criteria e in
  let line_y_relative :=
    if negb (top_region_datum =? bot_region_datum)
    then (inject_Z (datum - bot_region_datum)
          / inject_Z (top_region_datum - bot_region_datum))%Q
    else (1 # 2)%Q in
  let line_y :=
    (box_top_y - ((box_size - (padding * 2)) * line_y_relative) - padding)%Q in
  let text_y :=
    match last_text_y p with
    | Some last =>
        if Qltb (last - line_y) (min_space_y st)
        then (last - min_space_y st)%Q
        else line_y
    | None => line_y
    end in
  {| last_text_y := Some text_y;
     pass_layout := attempt_adjust_y_range text_y st;
     plot_data :=
       plot_data p ++
       [ {| line_x_points :=
              Some {| p0 := 1; p1 := 5 # 4; p2 := 5 # 4; p3 := 3 # 2 |};
            line_y_points :=
              Some {| p0 := line_y; p1 := line_y; p2 := text_y; p3 := text_y |};
            text_x := Some (3 # 2)%Q;
            text_y := Some text_y;
            region_name := Some (region e);
            category := Some category_i;
            postcode_cell :=
              if has_postcode (input_table st) then Some (postcode e) else None;
            datum_cell := Some datum |} ] |}.

(** The body of the outer loop, for one category. *)
Definition place_category (acc : Q * Pass) (category_i : nat) : Q * Pass :=
  let '(box_top_y, p) := acc in
  let st := pass_layout p in
  let curr_top := nth category_i (display_regions st) [] in
  let sort_criteria := nth category_i (sort_criterias st) TimeSafeKey in
  let box_size := nth category_i (ratios st) 0%Q in
  if Qeq_bool box_size 0 then acc
  else
    let top_region_datum := col_max (map (column sort_criteria) curr_top) in
    let bot_region_datum := col_min (map (column sort_criteria) curr_top) in
    let padding := (box_size * (1 # 10))%Q in
    ((box_top_y - box_size)%Q,
     fold_left
       (place_region category_i sort_criteria box_top_y box_size padding
          top_region_datum bot_region_datum)
       curr_top p).

Definition place_lines (st : Layout) : Pass :=
  snd (fold_left place_category (seq 0 (length (ratios st)))
         (1%Q, {| last_text_y := None; pass_layout := st; plot_data := [] |})).

Definition is_searched (query : string) (r : PlotRow) : bool :=
  match region_name r with
  | Some n => String.eqb n query
  | None => false
  end
  || match postcode_cell r with
     | Some c => String.eqb c query
     | None => false
     end.

(** The last loop of [__build_plot_data__]: the matching row of highest
    index is moved from the map to the searched map. *)
Fixpoint isolate_searched (query : string) (data : list PlotRow)
    : list PlotRow * list PlotRow :=
  match data with
  | [] => ([], [])
  | r :: rest =>
      match isolate_searched query rest with
      | (rest', []) =>
          if is_searched query r then (rest', [r]) else (r :: rest', [])
      | (rest', found) => (r :: rest', found)
      end
  end.

Definition build_plot_data (st : Layout) : Layout :=
  let p := place_lines st in
  let data := adjust_branches (pass_layout p) (plot_data p) Rightward in
  let '(data, searched) := isolate_searched (last_searched st) data in
  set_sources data searched (pass_layout p).

(** ** Legend boxes: the part of [__draw_phase_boxes__] before rendering *)

Definition dummy_row : PlotRow :=
  {| line_x_points := None; line_y_points := None; text_x := None;
     text_y := None; region_name := None; category := None;
     postcode_cell := None; datum_cell := None |}.

Definition box_row (xs ys : option Points) (tx ty : Q) (i : nat) : PlotRow :=
  {| line_x_points := xs; line_y_points := ys; text_x := Some tx;
     text_y := Some ty; region_name := None; category := Some i;
     postcode_cell := None; datum_cell := None |}.

Definition place_box (acc : Q * Pass) (i : nat) : Q * Pass :=
  let '(box_top_y, p) := acc in
  let st := pass_layout p in
  let box_size := nth i (ratios st) 0%Q in
  let box_middle := (box_top_y - (box_size / 2))%Q in
  if Qeq_bool box_size 0
  then (box_top_y,
        {| last_text_y := last_text_y p; pass_layout := st;
           plot_data := plot_data p ++ [dummy_row] |})
  else
    let '(row, ty) :=
      if Qle_bool (min_space_y st * (5 # 2)) box_size
      then (box_row None None 0 box_middle i, box_middle)
      else
        let min_space_multiplier := 2%Q in
        let ty :=
          match last_text_y p with
          | Some last =>
              if Qltb ((last - box_middle) / min_space_multiplier) (min_space_y st)
              then (last - (min_space_y st * min_space_multiplier))%Q
              else box_middle
          | None => box_middle
          end in
        (box_row
           (Some {| p0 := - (59 # 40); p1 := - (5 # 4); p2 := - (5 # 4); p3 := - (1) |})
           (Some {| p0 := ty; p1 := ty; p2 := box_middle; p3 := box_middle |})
           (- (3 # 2)) ty i, ty) in
    ((box_top_y - box_size)%Q,
     {| last_text_y := Some ty;
        pass_layout := attempt_adjust_y_range ty st;
        plot_data := plot_data p ++ [row] |}).

(** Returns the layout (its [y_range] may have grown) and the box data
    handed to the renderer; [last_text_y] starts at [99999]. *)
Definition draw_phase_boxes (st : Layout) : Layout * list PlotRow :=
  let p :=
    snd (fold_left place_box (seq 0 (num_categories st))
           (1%Q, {| last_text_y := Some (inject_Z 99999); pass_layout := st;
                    plot_data := [] |})) in
  (pass_layout p, adjust_branches (pass_layout p) (plot_data p) Leftward).

(** ** Construction and event handlers *)

(** The attributes as [__init__] sets them before it calls the methods. *)
Definition new_layout (c : Cfg.t) (table : Table) : Layout :=
  let n := length (Cfg.labels c) in
  {| input_table := table;
     num_categories := n;
     lower_bounds :=
       Cfg.lower_bounds c ++ [col_max (map primary_incidence (rows table)) + 1];
     calc_with_secondary_incidence := Cfg.calc_with_secondary_incidence c;
     total_display_regions := Cfg.total_display_regions c;
     min_display_regions := Cfg.min_display_regions c;
     min_space_x := Cfg.min_space_x c;
     min_space_y := Cfg.min_space_y c;
     y_range := Cfg.y_range c;
     ratios := [];
     categorized_entries := [];
     display_regions := replicate n [];
     sort_criterias := [];
     last_searched := "";
     source := [];
     searched_source := [] |}.

Definition init (c : Cfg.t) (table : Table) : result Layout :=
  st <-! categorize_entries (new_layout c table) ;;
  st <-! calculate_ratios st ;;
  Ok (build_plot_data (build_display_regions (init_sorting_criteria st))).

Definition render (st : Layout) : Layout := fst (draw_phase_boxes st).

Definition handle_search (new : string) (st : Layout) : Layout * option PyError :=
  match add_searched_region new st with
  | (st', None) => (build_plot_data st', None)
  | (st', Some e) => (st', Some e)
  end.

Definition handle_reset (st : Layout) : Layout :=
  build_plot_data (build_display_regions (set_last_searched "" st)).

(** What a session does after construction. *)
Inductive Event := Render | Search (query : string) | Reset.

Definition handle (ev : Event) (st : Layout) : Layout :=
  match ev with
  | Render => render st
  | Search q => fst (handle_search q st)
  | Reset => handle_reset st
  end.

Definition run (evs : list Event) (st : Layout) : Layout :=
  fold_left (fun s ev => handle ev s) evs st.

(** * Specification vocabulary *)

(** [st'] is [st] with another [y_range]. *)
Definition only_y_range (st st' : Layout) : Prop :=
  st' = set_y_range (y_range st') st.

(** The viewport may only keep its top and move its bottom down, the
    latter as long as the top is at least the box's top, [1]. *)
Definition grows (r r' : Q * Q) : Prop :=
  snd r' = snd r /\ ((1 <= snd r)%Q -> (fst r' <= fst r)%Q).

(** Both facts at once, for the loops that thread the layout. *)
Definition expands (st st' : Layout) : Prop :=
  only_y_range st st' /\ grows (y_range st) (y_range st').

(** The attributes no event handler writes: everything but the display
    sets, the query, the viewport and the two plot sources. *)
Definition frozen (st : Layout) : Layout :=
  set_sources [] []
    (set_y_range (0, 0)%Q (set_last_searched "" (set_display_regions [] st))).

(** * Sample inputs *)

Definition entry (r pc : string) (p s t : Z) : Entry :=
  {| region := r; postcode := pc; primary_incidence := p;
     secondary_incidence := s; time_safe := t; percent_change := 0 |}.

(** Three categories with the default sizing. *)
Definition demo_cfg : Cfg.t :=
  {| Cfg.labels := ["green"; "amber"; "red"]%string;
     Cfg.lower_bounds := [0; 1; 20];
     Cfg.calc_with_secondary_incidence := [false; false; false];
     Cfg.y_range := (- (3 # 40), 43 # 40)%Q;
     Cfg.min_space_x := (9 # 100)%Q;
     Cfg.min_space_y := (6 # 100)%Q;
     Cfg.total_display_regions := 12;
     Cfg.min_display_regions := 2 |}.

Definition demo_table : Table :=
  {| has_postcode := true;
     rows :=
       [ entry "a" "1000" 0 0 5; entry "b" "1001" 0 0 7; entry "c" "1002" 3 1 0;
         entry "d" "1003" 25 4 0; entry "e" "1004" 4 1 0; entry "f" "1005" 1 0 0;
         entry "g" "1006" 0 0 9; entry "h" "1007" 19 0 0; entry "i" "1008" 40 0 0;
         entry "j" "1009" 5 0 0 ] |}.

(** One category, two of its three rows displayed, and a viewport whose
    top lies below the top of the box. *)
Definition low_top_cfg : Cfg.t :=
  {| Cfg.labels := ["green"]%string;
     Cfg.lower_bounds := [0];
     Cfg.calc_with_secondary_incidence := [false];
     Cfg.y_range := (- (3 # 40), 19 # 20)%Q;
     Cfg.min_space_x := (9 # 100)%Q;
     Cfg.min_space_y := (1 # 10)%Q;
     Cfg.total_display_regions := 2;
     Cfg.min_display_regions := 2 |}.

Definition low_top_table : Table :=
  {| has_postcode := true;
     rows := [ entry "a" "1000" 0 0 3; entry "b" "1001" 0 0 2;
               entry "c" "1002" 0 0 1 ] |}.

(** The layout a construction returns, or [d] when it raised. *)
Definition built (r : result Layout) (d : Layout) : Layout :=
  match r with
  | Ok st => st
  | Raise _ => d
  end.

Definition low_top_layout : Layout :=
  built (init low_top_cfg low_top_table) (new_layout low_top_cfg low_top_table).

(** The same layout after the search for region [b]. *)
Definition low_top_searched : Layout := handle (Search "b") low_top_layout.

Definition demo_layout : Layout :=
  built (init demo_cfg demo_table) (new_layout demo_cfg demo_table).

(** * Vocabulary of the layout claims *)

(** The labels of a plot-data map, in placement order. *)
Definition label_ys (data : list PlotRow) : list Q := omap text_y data.

(** Label [a] was placed before label [b]: [b] lies at least [m] below. *)
Definition apart (m : Q) (a b : Q) : Prop := (b + m <= a)%Q /\ (b < a)%Q.

(** What the loops of [__build_plot_data__] maintain. *)
Definition well_placed (m : Q) (p : Pass) : Prop :=
  min_space_y (pass_layout p) = m
  /\ length (label_ys (plot_data p)) = length (plot_data p)
  /\ StronglySorted (apart m) (label_ys (plot_data p))
  /\ last_text_y p = last (label_ys (plot_data p)).

(** * Vocabulary of the branch resolver claims *)

(** Whether a row is branched; [None] for a row without a line. *)
Definition branch_flag (r : PlotRow) : option bool :=
  match line_x_points r, line_y_points r with
  | Some _, Some ys => Some (is_branched ys)
  | _, _ => None
  end.

Fixpoint leading_run (flags : list bool) : nat :=
  match flags with
  | true :: l => S (leading_run l)
  | _ => 0
  end.

(** The number of branched rows met first in [below], the rows under a
    row from the nearest on, rows without a line not counted. *)
Definition run_below (below : list PlotRow) : Z :=
  Z.of_nat (leading_run (omap branch_flag below)).

Definition signed (d : Direction) (a : Q) : Q :=
  match d with
  | Leftward => (a * -1)%Q
  | Rightward => a
  end.

(** A row after the resolver, given the length [k] of the run below it. *)
Definition resolved (msx : Q) (d : Direction) (k : Z) (r : PlotRow) : PlotRow :=
  match branch_flag r with
  | Some b =>
      if b || negb (k =? 0)
      then shift d (signed d (msx * inject_Z k)%Q) r
      else r
  | None => r
  end.

(** A sample line row from its line and label heights. *)
Definition line_row (line_y ty : Q) : PlotRow :=
  {| line_x_points := Some {| p0 := 1; p1 := 5 # 4; p2 := 5 # 4; p3 := 3 # 2 |};
     line_y_points := Some {| p0 := line_y; p1 := line_y; p2 := ty; p3 := ty |};
     text_x := Some (3 # 2)%Q; text_y := Some ty;
     region_name := Some "r"%string; category := Some 0%nat;
     postcode_cell := None; datum_cell := Some 0 |}.

(** Top to bottom: unbranched, branched, branched, unbranched, branched. *)
Definition sample_rows : list PlotRow :=
  [ line_row (9 # 10) (9 # 10); line_row (9 # 10) (8 # 10);
    line_row (9 # 10) (7 # 10); line_row (5 # 10) (5 # 10);
    line_row (5 # 10) (4 # 10) ].

(** * Vocabulary of the categorizer claims *)

(** The pool of a category. *)
Definition pool (st : Layout) (i : nat) : list Entry :=
  nth i (categorized_entries st) [].

(** The mask of category [i], less the mask of the category before it. *)
Definition assigned (st : Layout) (i : nat) (e : Entry) : bool :=
  in_category st i e
  && match i with
     | O => true
     | S j => negb (in_category st j e)
     end.

Definition Qsum (l : list Q) : Q := fold_right Qplus 0%Q l.

(** Categories 0 and 2 of three read different incidence columns. *)
Definition mixed_cfg : Cfg.t :=
  {| Cfg.labels := ["green"; "amber"; "red"]%string;
     Cfg.lower_bounds := [0; 10; 20];
     Cfg.calc_with_secondary_incidence := [false; true; true];
     Cfg.y_range := (- (3 # 40), 43 # 40)%Q;
     Cfg.min_space_x := (9 # 100)%Q;
     Cfg.min_space_y := (6 # 100)%Q;
     Cfg.total_display_regions := 12;
     Cfg.min_display_regions := 2 |}.

Definition mixed_table : Table :=
  {| has_postcode := true;
     rows := [ entry "a" "1000" 5 25 3; entry "b" "1001" 30 0 0 ] |}.

(** The lowest bound lies above the incidence of a row. *)
Definition high_floor_cfg : Cfg.t :=
  {| Cfg.labels := ["amber"; "red"]%string;
     Cfg.lower_bounds := [1; 20];
     Cfg.calc_with_secondary_incidence := [false; false];
     Cfg.y_range := (- (3 # 40), 43 # 40)%Q;
     Cfg.min_space_x := (9 # 100)%Q;
     Cfg.min_space_y := (6 # 100)%Q;
     Cfg.total_display_regions := 12;
     Cfg.min_display_regions := 2 |}.

Definition high_floor_table : Table :=
  {| has_postcode := true;
     rows := [ entry "a" "1000" 0 0 3; entry "b" "1001" 5 0 0 ] |}.

Definition mixed_layout : Layout :=
  built (init mixed_cfg mixed_table) (new_layout mixed_cfg mixed_table).

Definition high_floor_layout : Layout :=
  built (init high_floor_cfg high_floor_table)
    (new_layout high_floor_cfg high_floor_table).

(** * Sample inputs of the selector and search claims *)

(** No forced minimum of displayed rows, and a small second category. *)
Definition zero_min_cfg : Cfg.t :=
  {| Cfg.labels := ["green"; "red"]%string;
     Cfg.lower_bounds := [0; 1];
     Cfg.calc_with_secondary_incidence := [false; false];
     Cfg.y_range := (- (3 # 40), 43 # 40)%Q;
     Cfg.min_space_x := (9 # 100)%Q;
     Cfg.min_space_y := (6 # 100)%Q;
     Cfg.total_display_regions := 12;
     Cfg.min_display_regions := 0 |}.

Definition zero_min_table : Table :=
  {| has_postcode := true;
     rows :=
       [ entry "a" "1000" 0 0 1; entry "b" "1001" 0 0 2; entry "c" "1002" 0 0 3;
         entry "d" "1003" 0 0 4; entry "e" "1004" 0 0 5; entry "f" "1005" 0 0 6;
         entry "g" "1006" 0 0 7; entry "h" "1007" 0 0 8; entry "i" "1008" 0 0 9;
         entry "j" "1009" 0 0 10; entry "k" "1010" 0 0 11; entry "l" "1011" 0 0 12;
         entry "m" "1012" 5 2 0 ] |}.

Definition zero_min_layout : Layout :=
  built (init zero_min_cfg zero_min_table) (new_layout zero_min_cfg zero_min_table).

(** One category showing two of five rows; rows [b] and [c] share a
    postcode. *)
Definition shared_postcode_cfg : Cfg.t :=
  {| Cfg.labels := ["green"]%string;
     Cfg.lower_bounds := [0];
     Cfg.calc_with_secondary_incidence := [false];
     Cfg.y_range := (- (3 # 40), 43 # 40)%Q;
     Cfg.min_space_x := (9 # 100)%Q;
     Cfg.min_space_y := (6 # 100)%Q;
     Cfg.total_display_regions := 2;
     Cfg.min_display_regions := 2 |}.

Definition shared_postcode_table : Table :=
  {| has_postcode := true;
     rows :=
       [ entry "a" "1000" 0 0 5; entry "b" "2000" 0 0 4; entry "c" "2000" 0 0 3;
         entry "d" "3000" 0 0 2; entry "e" "4000" 0 0 1 ] |}.

Definition shared_postcode_layout : Layout :=
  built (init shared_postcode_cfg shared_postcode_table)
    (new_layout shared_postcode_cfg shared_postcode_table).

(** The demo table without its postcode column. *)
Definition no_postcode_table : Table :=
  {| has_postcode := false; rows := rows demo_table |}.

Definition no_postcode_layout : Layout :=
  built (init demo_cfg no_postcode_table) (new_layout demo_cfg no_postcode_table).

(** * Vocabulary of the search claims *)

(** The lookup field of a query. *)
Definition search_type_of (query : string) : SearchKey :=
  if isnumeric query then PostcodeKey else RegionKey.

(** The display set of category [i] after the injector has put the
    matching rows of its pool into it. *)
Definition injected (col : Entry -> string) (query : string) (st : Layout)
    (i : nat) : list Entry :=
  let criteria := nth i (sort_criterias st) TimeSafeKey in
  sort_values criteria (SortKey_eqb criteria (get_incidence_key st i))
    (nth i (display_regions st) [] ++ matching col query (pool st i)).

(** * Vocabulary of the further properties *)

(** Row [x] is ranked no later than row [y] by column [k]. *)
Definition ranked (k : SortKey) (ascending : bool) (x y : Entry) : Prop :=
  key_le ascending (column k x) (column k y) = true.

(** The criterion and direction [__build_display_regions__] sorts
    category [i] by. *)
Definition criteria_of (st : Layout) (i : nat) : SortKey :=
  nth i (sort_criterias st) TimeSafeKey.

Definition ascending_of (st : Layout) (i : nat) : bool :=
  negb (SortKey_eqb (criteria_of st i) TimeSafeKey).

Definition sorted_pool (st : Layout) (i : nat) : list Entry :=
  sort_values (criteria_of st i) (ascending_of st i) (pool st i).

(** The rows a pass plots: the display sets of the categories of
    non-zero ratio, in category order. *)
Definition plotted (st : Layout) : list Entry :=
  flat_map
    (fun i =>
       if Qeq_bool (nth i (ratios st) 0%Q) 0 then []
       else nth i (display_regions st) [])
    (seq 0 (length (ratios st))).

(** Row [r] is the line of entry [e] as the builder places it, before
    the branch resolver: the fixed x points, a level line at [line_y] and
    the label at or below it. *)
Definition plots (pc : bool) (r : PlotRow) (e : Entry) : Prop :=
  region_name r = Some (region e)
  /\ postcode_cell r = (if pc then Some (postcode e) else None)
  /\ line_x_points r = Some {| p0 := 1; p1 := 5 # 4; p2 := 5 # 4; p3 := 3 # 2 |}
  /\ text_x r = Some (3 # 2)%Q
  /\ exists line_y ty,
       line_y_points r
       = Some {| p0 := line_y; p1 := line_y; p2 := ty; p3 := ty |}
       /\ text_y r = Some ty
       /\ (ty <= line_y)%Q.

(** No label of the pass lies below the viewport. *)
Definition covered (p : Pass) : Prop :=
  forall y, In y (label_ys (plot_data p)) ->
            (fst (y_range (pass_layout p)) <= y)%Q.

(** The first plotted row of the demo layout, and its label height. *)
Definition demo_row : PlotRow :=
  nth 0 (source (build_plot_data demo_layout)) dummy_row.

Definition demo_row_y : Q :=
  match text_y demo_row with
  | Some y => y
  | None => 0%Q
  end.

(** The x points of a polyline run left to right. *)
Definition ordered (xs : Points) : Prop :=
  (p0 xs <= p1 xs)%Q /\ (p1 xs <= p2 xs)%Q /\ (p2 xs <= p3 xs)%Q.

(** The query is the entry's region name or, when the table has the
    column, its postcode. *)
Definition entry_searched (pc : bool) (query : string) (e : Entry) : bool :=
  String.eqb (region e) query || (pc && String.eqb (postcode e) query).

(** The layout after the search for region [c], and the row its pass
    highlights. *)
Definition searched_demo : Layout := fst (add_searched_region "c" demo_layout).

Definition highlight_row : PlotRow :=
  nth 0 (searched_source (build_plot_data searched_demo)) dummy_row.

(** What [__draw_phase_boxes__] stores for category [i] before the branch
    resolver: a placeholder for an empty category, a label inside the box
    for a large one, a label on a branch to the left for a small one. *)
Definition boxed (st : Layout) (r : PlotRow) (i : nat) : Prop :=
  let size := nth i (ratios st) 0%Q in
  if Qeq_bool size 0 then r = dummy_row
  else
    category r = Some i
    /\ (exists y, text_y r = Some y)
    /\ if Qle_bool (min_space_y st * (5 # 2)) size
       then line_x_points r = None /\ line_y_points r = None
            /\ text_x r = Some 0%Q
       else line_x_points r
            = Some {| p0 := - (59 # 40); p1 := - (5 # 4); p2 := - (5 # 4);
                      p3 := - (1) |}
            /\ (exists ys, line_y_points r = Some ys)
            /\ text_x r = Some (- (3 # 2))%Q.

(** The top of the band of category [i]: the value of [box_top_y] when
    the outer loop of the builder reaches the category. *)
Definition band_top (st : Layout) (i : nat) : Q :=
  fold_left
    (fun top j =>
       if Qeq_bool (nth j (ratios st) 0%Q) 0 then top
       else (top - nth j (ratios st) 0)%Q)
    (seq 0 i) 1%Q.

(** Row [r] is a line of some category, drawn inside the category's band
    with a tenth of the band's height left free above and below. *)
Definition in_band (st : Layout) (r : PlotRow) : Prop :=
  exists i ys,
    category r = Some i
    /\ line_y_points r = Some ys
    /\ p0 ys = p1 ys
    /\ (band_top st i - (9 # 10) * nth i (ratios st) 0 <= p0 ys)%Q
    /\ (p0 ys <= band_top st i - (1 # 10) * nth i (ratios st) 0)%Q.
(** * Properties *)

(** ** Rational comparisons *)

Lemma Qltb_lt (x y : Q) : Qltb x y = true <-> (x < y)%Q.
Proof.
  unfold Qltb. rewrite negb_true_iff.
  split.
  - intros H. apply Qnot_le_lt. intros Hle.
    apply Qle_bool_iff in Hle. congruence.
  - intros H. destruct (Qle_bool y x) eqn:E; [|reflexivity].
    apply Qle_bool_iff in E. exfalso. apply (Qlt_not_le _ _ H E).
Qed.

Lemma Qltb_ge (x y : Q) : Qltb x y = false <-> (y <= x)%Q.
Proof.
  unfold Qltb. rewrite negb_false_iff. apply Qle_bool_iff.
Qed.

(** ** Frames: what a method leaves alone *)

Lemma only_y_range_refl st : only_y_range st st.
Proof. destruct st; reflexivity. Qed.

Lemma only_y_range_trans a b c :
  only_y_range a b -> only_y_range b c -> only_y_range a c.
Proof.
  unfold only_y_range. intros Hab Hbc. rewrite Hbc at 1. rewrite Hab at 1.
  reflexivity.
Qed.

Lemma attempt_adjust_only_y_range y st :
  only_y_range st (attempt_adjust_y_range y st).
Proof.
  unfold attempt_adjust_y_range.
  destruct (Qltb y (fst (y_range st))).
  - reflexivity.
  - apply only_y_range_refl.
Qed.

Lemma grows_refl r : grows r r.
Proof. split; [reflexivity | intros; apply Qle_refl]. Qed.

Lemma grows_trans a b c : grows a b -> grows b c -> grows a c.
Proof.
  intros [H1 H2] [H3 H4]. split.
  - congruence.
  - intros H. rewrite H1 in H4. specialize (H2 H). specialize (H4 H).
    eapply Qle_trans; eassumption.
Qed.

Lemma attempt_adjust_grows y st :
  grows (y_range st) (y_range (attempt_adjust_y_range y st)).
Proof.
  unfold attempt_adjust_y_range.
  destruct (Qltb y (fst (y_range st))) eqn:E.
  - apply Qltb_lt in E. split; simpl; [reflexivity|].
    intros H. lra.
  - apply grows_refl.
Qed.

Lemma expands_refl st : expands st st.
Proof. split; [apply only_y_range_refl | apply grows_refl]. Qed.

Lemma expands_trans a b c : expands a b -> expands b c -> expands a c.
Proof.
  intros [H1 H2] [H3 H4]. split.
  - eapply only_y_range_trans; eassumption.
  - eapply grows_trans; eassumption.
Qed.

Lemma attempt_adjust_expands y st : expands st (attempt_adjust_y_range y st).
Proof.
  split; [apply attempt_adjust_only_y_range | apply attempt_adjust_grows].
Qed.

Lemma place_region_layout i k top size pad t b p e :
  exists y, pass_layout (place_region i k top size pad t b p e)
            = attempt_adjust_y_range y (pass_layout p).
Proof. unfold place_region. simpl. eexists. reflexivity. Qed.

Lemma place_region_expands i k top size pad t b p e :
  expands (pass_layout p) (pass_layout (place_region i k top size pad t b p e)).
Proof.
  destruct (place_region_layout i k top size pad t b p e) as [y ->].
  apply attempt_adjust_expands.
Qed.

Lemma fold_place_region_expands i k top size pad t b l p :
  expands (pass_layout p)
    (pass_layout (fold_left (place_region i k top size pad t b) l p)).
Proof.
  revert p. induction l as [|e l IH]; intros p; simpl.
  - apply expands_refl.
  - eapply expands_trans; [apply place_region_expands | apply IH].
Qed.

Lemma place_category_expands acc i :
  expands (pass_layout (snd acc)) (pass_layout (snd (place_category acc i))).
Proof.
  destruct acc as [top p]. unfold place_category. simpl.
  destruct (Qeq_bool _ 0); simpl.
  - apply expands_refl.
  - apply fold_place_region_expands.
Qed.

Lemma fold_place_category_expands l acc :
  expands (pass_layout (snd acc))
    (pass_layout (snd (fold_left place_category l acc))).
Proof.
  revert acc. induction l as [|i l IH]; intros acc; simpl.
  - apply expands_refl.
  - eapply expands_trans; [apply place_category_expands | apply IH].
Qed.

Lemma place_lines_expands st : expands st (pass_layout (place_lines st)).
Proof.
  unfold place_lines.
  exact (fold_place_category_expands (seq 0 (length (ratios st)))
           (1%Q, {| last_text_y := None; pass_layout := st; plot_data := [] |})).
Qed.

Lemma place_box_expands acc i :
  expands (pass_layout (snd acc)) (pass_layout (snd (place_box acc i))).
Proof.
  destruct acc as [top p]. unfold place_box. simpl.
  destruct (Qeq_bool _ 0); simpl; [apply expands_refl|].
  destruct (Qle_bool _ _); simpl; apply attempt_adjust_expands.
Qed.

Lemma fold_place_box_expands l acc :
  expands (pass_layout (snd acc))
    (pass_layout (snd (fold_left place_box l acc))).
Proof.
  revert acc. induction l as [|i l IH]; intros acc; simpl.
  - apply expands_refl.
  - eapply expands_trans; [apply place_box_expands | apply IH].
Qed.

Lemma render_expands st : expands st (render st).
Proof.
  unfold render, draw_phase_boxes. simpl.
  exact (fold_place_box_expands (seq 0 (num_categories st))
           (1%Q, {| last_text_y := Some (inject_Z 99999); pass_layout := st;
                    plot_data := [] |})).
Qed.

Lemma only_y_range_frozen st st' :
  only_y_range st st' -> frozen st' = frozen st.
Proof. intros H. rewrite H. reflexivity. Qed.

Lemma only_y_range_display st st' :
  only_y_range st st' -> display_regions st' = display_regions st.
Proof. intros H. rewrite H. reflexivity. Qed.

Lemma only_y_range_min_space_y st st' :
  only_y_range st st' -> min_space_y st' = min_space_y st.
Proof. intros H. rewrite H. reflexivity. Qed.

Lemma select_display_frozen st st' i :
  frozen st = frozen st' -> select_display st i = select_display st' i.
Proof.
  intros H.
  change (select_display (frozen st) i = select_display (frozen st') i).
  rewrite H. reflexivity.
Qed.

Lemma build_plot_data_shape st :
  exists d s, build_plot_data st = set_sources d s (pass_layout (place_lines st)).
Proof.
  unfold build_plot_data.
  destruct (isolate_searched _ _) as [d s]. eauto.
Qed.

Lemma build_plot_data_frozen st : frozen (build_plot_data st) = frozen st.
Proof.
  destruct (build_plot_data_shape st) as (d & s & ->).
  destruct (place_lines_expands st) as [H _].
  rewrite <- (only_y_range_frozen _ _ H). reflexivity.
Qed.

Lemma build_plot_data_display st :
  display_regions (build_plot_data st) = display_regions st.
Proof.
  destruct (build_plot_data_shape st) as (d & s & ->).
  destruct (place_lines_expands st) as [H _].
  rewrite <- (only_y_range_display _ _ H). reflexivity.
Qed.

Lemma build_plot_data_grows st :
  grows (y_range st) (y_range (build_plot_data st)).
Proof.
  destruct (build_plot_data_shape st) as (d & s & ->).
  destruct (place_lines_expands st) as [_ H]. exact H.
Qed.

(** *** The display selector writes the display sets only *)

Lemma fold_select_frozen l st :
  frozen (fold_left select_step l st) = frozen st
  /\ y_range (fold_left select_step l st) = y_range st
  /\ last_searched (fold_left select_step l st) = last_searched st.
Proof.
  revert st. induction l as [|i l IH]; intros st; simpl; [tauto|].
  destruct (IH (select_step st i)) as (H1 & H2 & H3).
  rewrite H1, H2, H3. repeat split.
Qed.

Lemma fold_select_display m st :
  (m <= length (display_regions st))%nat ->
  display_regions (fold_left select_step (seq 0 m) st)
  = map (select_display st) (seq 0 m) ++ drop m (display_regions st).
Proof.
  induction m as [|m IH]; intros Hm.
  - simpl. rewrite drop_0. reflexivity.
  - rewrite seq_S, fold_left_app, map_app. simpl.
    unfold select_step at 1. simpl.
    rewrite IH by lia.
    destruct (fold_select_frozen (seq 0 m) st) as (Hf & _ & _).
    fold select_step.
    rewrite (select_display_frozen _ st m Hf).
    rewrite insert_app_r_alt; rewrite length_map, length_seq; [|lia].
    rewrite Nat.sub_diag.
    destruct (drop m (display_regions st)) as [|x rest] eqn:E.
    + apply (f_equal length) in E. rewrite length_drop in E. simpl in E. lia.
    + simpl. rewrite <- app_assoc. simpl.
      replace (drop (S m) (display_regions st)) with rest; [reflexivity|].
      pose proof (drop_drop (display_regions st) 1 m) as D.
      rewrite E, Nat.add_1_r in D. exact D.
Qed.

Lemma build_display_regions_frozen st :
  frozen (build_display_regions st) = frozen st
  /\ y_range (build_display_regions st) = y_range st
  /\ last_searched (build_display_regions st) = last_searched st.
Proof. apply fold_select_frozen. Qed.

Lemma build_display_regions_display st :
  length (display_regions st) = num_categories st ->
  display_regions (build_display_regions st)
  = map (select_display st) (seq 0 (num_categories st)).
Proof.
  intros H. unfold build_display_regions.
  rewrite fold_select_display by lia.
  rewrite <- H, drop_all, app_nil_r. reflexivity.
Qed.

(** *** The search injector writes one display set and the query *)

Lemma search_categories_frozen q k l st :
  frozen (fst (search_categories q k l st)) = frozen st
  /\ y_range (fst (search_categories q k l st)) = y_range st
  /\ length (display_regions (fst (search_categories q k l st)))
     = length (display_regions st).
Proof.
  induction l as [|i l IH]; simpl; [tauto|].
  destruct (text_column _ k); simpl; [|tauto].
  destruct (_ && _); simpl; [|exact IH].
  rewrite length_insert. tauto.
Qed.

Lemma add_searched_region_frozen q st :
  frozen (fst (add_searched_region q st)) = frozen st
  /\ y_range (fst (add_searched_region q st)) = y_range st
  /\ length (display_regions (fst (add_searched_region q st)))
     = length (display_regions st).
Proof.
  unfold add_searched_region.
  destruct (search_categories_frozen q
              (if isnumeric q then PostcodeKey else RegionKey)
              (seq 0 (num_categories (set_last_searched q st)))
              (set_last_searched q st)) as (H1 & H2 & H3).
  rewrite H1, H2, H3. repeat split.
Qed.

(** *** Construction *)

Lemma categorize_entries_Ok st st' :
  categorize_entries st = Ok st' ->
  st' = set_categorized_entries
          (resolve_ties (has_postcode (input_table st)) (num_categories st)
             (map (fun i => List.filter (in_category st i) (rows (input_table st)))
                (seq 0 (num_categories st)))) st
  /\ (num_categories st <= length (calc_with_secondary_incidence st))%nat
  /\ (S (num_categories st) <= length (lower_bounds st))%nat.
Proof.
  unfold categorize_entries.
  destruct (_ <? _)%nat eqn:E1; simpl; [discriminate|].
  destruct (length (lower_bounds st) <? _)%nat eqn:E2; simpl; [discriminate|].
  intros [= <-].
  apply Nat.ltb_ge in E1, E2. repeat split; assumption.
Qed.

Lemma calculate_ratios_Ok st st' :
  calculate_ratios st = Ok st' ->
  st' = set_ratios
          (map (fun i =>
                  (inject_Z (Z.of_nat (length (nth i (categorized_entries st) [])))
                   / inject_Z (Z.of_nat (length (rows (input_table st)))))%Q)
               (seq 0 (num_categories st))) st
  /\ (num_categories st = 0 \/ length (rows (input_table st)) <> 0)%nat.
Proof.
  unfold calculate_ratios.
  destruct (0 <? _)%nat eqn:E1; simpl.
  - destruct (_ =? 0)%nat eqn:E2; simpl; [discriminate|].
    intros [= <-]. split; [reflexivity|].
    right. apply Nat.eqb_neq. exact E2.
  - intros [= <-]. split; [reflexivity|].
    left. apply Nat.ltb_ge in E1. lia.
Qed.

Lemma init_Ok c table st0 :
  init c table = Ok st0 ->
  exists st1 st2,
    categorize_entries (new_layout c table) = Ok st1
    /\ calculate_ratios st1 = Ok st2
    /\ st0 = build_plot_data (build_display_regions (init_sorting_criteria st2)).
Proof.
  unfold init, bind.
  destruct (categorize_entries _) as [st1|] eqn:E1; [|discriminate].
  destruct (calculate_ratios st1) as [st2|] eqn:E2; [|discriminate].
  intros [= <-]. eauto.
Qed.

Lemma init_display c table st0 :
  init c table = Ok st0 ->
  length (display_regions st0) = num_categories st0
  /\ display_regions st0 = map (select_display st0) (seq 0 (num_categories st0)).
Proof.
  intros H. destruct (init_Ok _ _ _ H) as (st1 & st2 & H1 & H2 & ->).
  apply categorize_entries_Ok in H1 as (-> & _ & _).
  apply calculate_ratios_Ok in H2 as (-> & _).
  set (st3 := init_sorting_criteria _).
  assert (Hlen : length (display_regions st3) = num_categories st3).
  { simpl. apply length_replicate. }
  pose proof (build_plot_data_frozen (build_display_regions st3)) as Hf.
  destruct (build_display_regions_frozen st3) as (Hf' & _ & _).
  assert (Hn : num_categories (build_plot_data (build_display_regions st3))
               = num_categories st3).
  { change (num_categories (frozen (build_plot_data (build_display_regions st3)))
            = num_categories (frozen st3)).
    rewrite Hf, Hf'. reflexivity. }
  rewrite build_plot_data_display, Hn.
  rewrite (build_display_regions_display st3 Hlen).
  split.
  - rewrite length_map, length_seq. reflexivity.
  - apply map_ext. intros i. apply select_display_frozen.
    rewrite Hf, Hf'. reflexivity.
Qed.

Lemma init_grows c table st0 :
  init c table = Ok st0 -> grows (Cfg.y_range c) (y_range st0).
Proof.
  intros H. destruct (init_Ok _ _ _ H) as (st1 & st2 & H1 & H2 & ->).
  apply categorize_entries_Ok in H1 as (-> & _ & _).
  apply calculate_ratios_Ok in H2 as (-> & _).
  set (st3 := init_sorting_criteria _).
  pose proof (build_plot_data_grows (build_display_regions st3)) as G.
  destruct (build_display_regions_frozen st3) as (_ & Hy & _).
  rewrite Hy in G. exact G.
Qed.

(** *** Events *)

Lemma handle_frozen ev st :
  frozen (handle ev st) = frozen st
  /\ (length (display_regions st) = num_categories st ->
      length (display_regions (handle ev st)) = num_categories st)
  /\ grows (y_range st) (y_range (handle ev st)).
Proof.
  destruct ev as [|q|]; simpl.
  - destruct (render_expands st) as [H1 H2]. repeat split.
    + apply only_y_range_frozen, H1.
    + rewrite (only_y_range_display _ _ H1). auto.
    + apply H2.
    + apply H2.
  - unfold handle_search.
    destruct (add_searched_region_frozen q st) as (H1 & H2 & H3).
    destruct (add_searched_region q st) as [st' [e|]]; simpl in *.
    + rewrite H1, H2, H3. split; [reflexivity|]. split; [auto|apply grows_refl].
    + rewrite build_plot_data_frozen, build_plot_data_display, H1, H3.
      split; [reflexivity|]. split; [auto|].
      rewrite <- H2. apply build_plot_data_grows.
  - unfold handle_reset.
    set (st' := set_last_searched "" st).
    destruct (build_display_regions_frozen st') as (H1 & H2 & _).
    rewrite build_plot_data_frozen, build_plot_data_display, H1.
    split; [reflexivity|]. split.
    + intros Hl. rewrite (build_display_regions_display st' Hl).
      rewrite length_map, length_seq. reflexivity.
    + change (y_range st) with (y_range st'). rewrite <- H2.
      apply build_plot_data_grows.
Qed.

Lemma run_snoc evs ev st : run (evs ++ [ev]) st = handle ev (run evs st).
Proof. unfold run. rewrite fold_left_app. reflexivity. Qed.

Lemma run_frozen evs st :
  frozen (run evs st) = frozen st
  /\ (length (display_regions st) = num_categories st ->
      length (display_regions (run evs st)) = num_categories st)
  /\ grows (y_range st) (y_range (run evs st)).
Proof.
  induction evs as [|ev evs IH] using rev_ind.
  - simpl. split; [reflexivity|]. split; [auto|apply grows_refl].
  - rewrite run_snoc.
    destruct IH as (H1 & H2 & H3).
    destruct (handle_frozen ev (run evs st)) as (K1 & K2 & K3).
    assert (Hn : num_categories (run evs st) = num_categories st).
    { change (num_categories (frozen (run evs st)) = num_categories (frozen st)).
      rewrite H1. reflexivity. }
    rewrite Hn in K2.
    split; [congruence|]. split; [auto|].
    eapply grows_trans; eassumption.
Qed.

(** ** Range auto-expander *)

(** C9: one application leaves the viewport alone when the value is at or
    above the lower bound, and otherwise sets it to
    [(y - (upper - 1), upper)]; a second application with the same value
    changes nothing. *)
Theorem attempt_adjust_y_range_idempotent (y : Q) (st : Layout) :
  ((fst (y_range st) <= y)%Q -> attempt_adjust_y_range y st = st)
  /\ ((y < fst (y_range st))%Q ->
      attempt_adjust_y_range y st
      = set_y_range (y - (snd (y_range st) - 1), snd (y_range st))%Q st)
  /\ attempt_adjust_y_range y (attempt_adjust_y_range y st)
     = attempt_adjust_y_range y st.
Proof.
  split; [|split].
  - intros H. unfold attempt_adjust_y_range.
    rewrite (proj2 (Qltb_ge _ _) H). reflexivity.
  - intros H. unfold attempt_adjust_y_range.
    rewrite (proj2 (Qltb_lt _ _) H). reflexivity.
  - destruct (Qltb y (fst (y_range st))) eqn:E.
    + assert (H : attempt_adjust_y_range y st
                  = set_y_range (y - (snd (y_range st) - 1), snd (y_range st))%Q st).
      { unfold attempt_adjust_y_range. rewrite E. reflexivity. }
      rewrite H. unfold attempt_adjust_y_range. simpl.
      clear E H. destruct (Qltb y _); reflexivity.
    + assert (H : attempt_adjust_y_range y st = st).
      { unfold attempt_adjust_y_range. rewrite E. reflexivity. }
      rewrite !H. reflexivity.
Qed.

Lemma attempt_adjust_y_range_idempotent_witness :
  y_range (attempt_adjust_y_range (- (1 # 5)) (new_layout demo_cfg demo_table))
  = (- (1 # 5) - ((43 # 40) - 1), 43 # 40)%Q
  /\ attempt_adjust_y_range (1 # 2) (new_layout demo_cfg demo_table)
     = new_layout demo_cfg demo_table.
Proof.
  split.
  - rewrite (proj1 (proj2 (attempt_adjust_y_range_idempotent
                             (- (1 # 5)) (new_layout demo_cfg demo_table)))).
    + reflexivity.
    + reflexivity.
  - apply (proj1 (attempt_adjust_y_range_idempotent
                    (1 # 2) (new_layout demo_cfg demo_table))).
    discriminate.
Defined.

(** ** Sessions *)

(** X19: the upper bound of the viewport never changes, from the
    configured range through the initial build and across every event,
    whatever the configuration; when the configured upper bound is at
    least [1], the top of the box, the lower bound never increases either,
    and a reset leaves an expanded viewport expanded. *)
Theorem y_range_never_shrinks (c : Cfg.t) (table : Table) (st0 : Layout) :
  init c table = Ok st0 ->
  (snd (y_range st0) = snd (Cfg.y_range c)
   /\ forall (evs : list Event) (ev : Event),
        snd (y_range (handle ev (run evs st0))) = snd (y_range (run evs st0)))
  /\ ((1 <= snd (Cfg.y_range c))%Q ->
      (fst (y_range st0) <= fst (Cfg.y_range c))%Q
      /\ forall (evs : list Event) (ev : Event),
           let st := run evs st0 in
           (fst (y_range (handle ev st)) <= fst (y_range st))%Q
           /\ ((fst (y_range st) < fst (Cfg.y_range c))%Q ->
               (fst (y_range (handle Reset st)) < fst (Cfg.y_range c))%Q)).
Proof.
  intros Hinit.
  destruct (init_grows _ _ _ Hinit) as [G1 G2].
  split.
  - split; [exact G1|]. intros evs ev.
    destruct (handle_frozen ev (run evs st0)) as (_ & _ & [K1 _]). exact K1.
  - intros Htop. split; [exact (G2 Htop)|].
    intros evs ev st.
    destruct (run_frozen evs st0) as (_ & _ & [R1 R2]).
    fold st in R1, R2.
    assert (Hst : (1 <= snd (y_range st))%Q) by (rewrite R1, G1; exact Htop).
    destruct (handle_frozen ev st) as (_ & _ & [_ K2]).
    split; [exact (K2 Hst)|].
    intros Hlt.
    destruct (handle_frozen Reset st) as (_ & _ & [_ K3]).
    eapply Qle_lt_trans; [exact (K3 Hst) | exact Hlt].
Qed.

Lemma y_range_never_shrinks_witness :
  init demo_cfg demo_table = Ok demo_layout
  /\ (1 <= snd (Cfg.y_range demo_cfg))%Q
  /\ snd (y_range demo_layout) = snd (Cfg.y_range demo_cfg)
  /\ (fst (y_range demo_layout) <= fst (Cfg.y_range demo_cfg))%Q.
Proof.
  assert (H : init demo_cfg demo_table = Ok demo_layout)
    by (vm_compute; reflexivity).
  assert (T : (1 <= snd (Cfg.y_range demo_cfg))%Q) by discriminate.
  exact (conj H (conj T (conj
           (proj1 (proj1 (y_range_never_shrinks demo_cfg demo_table demo_layout H)))
           (proj1 (proj2 (y_range_never_shrinks demo_cfg demo_table demo_layout H)
                     T))))).
Defined.

(** C10 at a viewport whose top, [19/20], lies below the top of the box:
    the search for region [b] places the label of [c] at [-1/10], below
    the lower bound [-3/40]; [__attempt_adjust_y_range__] then sets the
    lower bound to [-1/10 - (19/20 - 1) = -1/20], so the bound moves up
    and the label it was moved for still lies below it. *)
Theorem y_range_lower_bound_can_increase :
  init low_top_cfg low_top_table = Ok low_top_layout
  /\ (fst (y_range low_top_layout) == - (3 # 40))%Q
  /\ (fst (y_range low_top_searched) == - (1 # 20))%Q
  /\ (fst (y_range low_top_layout) < fst (y_range low_top_searched))%Q
  /\ map region_name (source low_top_searched) = [Some "a"; Some "c"]%string
  /\ exists y,
       label_ys (source low_top_searched) !! 1%nat = Some y
       /\ (y == - (1 # 10))%Q
       /\ (y < fst (y_range low_top_searched))%Q.
Proof.
  split; [vm_compute; reflexivity|].
  split; [vm_compute; reflexivity|].
  split; [vm_compute; reflexivity|].
  split; [vm_compute; reflexivity|].
  split; [vm_compute; reflexivity|].
  eexists. split; [vm_compute; reflexivity|].
  split; vm_compute; reflexivity.
Qed.

(** C6: after any sequence of search queries, a reset gives every
    category the display set of the initial selector run, entry for entry
    and in the same order. *)
Theorem reset_restores_display (c : Cfg.t) (table : Table) (st0 : Layout)
    (queries : list string) :
  init c table = Ok st0 ->
  display_regions (handle_reset (run (map Search queries) st0))
  = display_regions st0.
Proof.
  intros Hinit.
  destruct (init_display _ _ _ Hinit) as [Hlen Hsel].
  set (st := run (map Search queries) st0).
  destruct (run_frozen (map Search queries) st0) as (Hf & Hl & _).
  fold st in Hf, Hl. specialize (Hl Hlen).
  assert (Hn : num_categories st = num_categories st0).
  { change (num_categories (frozen st) = num_categories (frozen st0)).
    rewrite Hf. reflexivity. }
  unfold handle_reset.
  rewrite build_plot_data_display.
  rewrite build_display_regions_display.
  - rewrite Hsel. simpl. rewrite Hn.
    apply map_ext. intros i. apply select_display_frozen.
    exact Hf.
  - simpl. rewrite Hn. exact Hl.
Qed.

Lemma reset_restores_display_witness :
  init demo_cfg demo_table = Ok demo_layout
  /\ display_regions
       (handle_reset
          (run (map Search ["1002"; "h"; "nowhere"]%string) demo_layout))
     = display_regions demo_layout.
Proof.
  assert (H : init demo_cfg demo_table = Ok demo_layout)
    by (vm_compute; reflexivity).
  split; [exact H|].
  exact (reset_restores_display demo_cfg demo_table demo_layout
           ["1002"; "h"; "nowhere"]%string H).
Defined.

(** ** Plot-data builder: label spacing *)

Lemma label_ys_snoc data r y :
  text_y r = Some y -> label_ys (data ++ [r]) = label_ys data ++ [y].
Proof.
  intros H. unfold label_ys. rewrite omap_app. simpl. rewrite H. reflexivity.
Qed.

Lemma apart_above_last m ys l :
  (0 < m)%Q -> StronglySorted (apart m) ys -> last ys = Some l ->
  forall x, x ∈ ys -> (l <= x)%Q.
Proof.
  intros Hm Hs Hl x Hx.
  apply last_Some in Hl as [ys' ->].
  apply StronglySorted_app in Hs as (Hcross & _ & _).
  apply elem_of_app in Hx as [Hx|Hx].
  - destruct (Hcross x l Hx) as [H _]; [apply list_elem_of_singleton; reflexivity|].
    lra.
  - apply list_elem_of_singleton in Hx. subst. apply Qle_refl.
Qed.

Lemma place_region_well_placed m i k top size pad t b p e :
  (0 < m)%Q -> well_placed m p ->
  well_placed m (place_region i k top size pad t b p e).
Proof.
  intros Hm (Hmsy & Hlen & Hs & Hlast).
  unfold place_region.
  set (line_y := (top - _ - pad)%Q).
  set (ty := match last_text_y p with Some _ => _ | None => _ end).
  unfold well_placed. cbn [pass_layout plot_data last_text_y].
  rewrite (label_ys_snoc _ _ ty) by reflexivity.
  split; [|split; [|split]].
  - rewrite (only_y_range_min_space_y _ _ (attempt_adjust_only_y_range _ _)).
    exact Hmsy.
  - rewrite !length_app, Hlen. reflexivity.
  - apply StronglySorted_app. split; [|split].
    + intros x y Hx Hy. apply list_elem_of_singleton in Hy. subst y.
      destruct (last_text_y p) as [l|] eqn:El.
      * symmetry in Hlast.
        pose proof (apart_above_last m _ l Hm Hs Hlast x Hx) as Hlx.
        assert (Hty : (ty + m <= l)%Q).
        { subst ty. rewrite Hmsy.
          destruct (Qltb (l - line_y) m) eqn:E.
          - lra.
          - apply Qltb_ge in E. lra. }
        split; lra.
      * symmetry in Hlast. apply last_None in Hlast.
        rewrite Hlast in Hx. inversion Hx.
    + exact Hs.
    + repeat constructor.
  - rewrite last_snoc. reflexivity.
Qed.

Lemma fold_place_region_well_placed m i k top size pad t b l p :
  (0 < m)%Q -> well_placed m p ->
  well_placed m (fold_left (place_region i k top size pad t b) l p).
Proof.
  intros Hm. revert p. induction l as [|e l IH]; intros p Hp; simpl.
  - exact Hp.
  - apply IH. apply place_region_well_placed; assumption.
Qed.

Lemma place_category_well_placed m acc i :
  (0 < m)%Q -> well_placed m (snd acc) ->
  well_placed m (snd (place_category acc i)).
Proof.
  intros Hm Hp. destruct acc as [top p]. unfold place_category. simpl.
  destruct (Qeq_bool _ 0); simpl.
  - exact Hp.
  - apply fold_place_region_well_placed; assumption.
Qed.

Lemma fold_place_category_well_placed m l acc :
  (0 < m)%Q -> well_placed m (snd acc) ->
  well_placed m (snd (fold_left place_category l acc)).
Proof.
  intros Hm. revert acc. induction l as [|i l IH]; intros acc Hp; simpl.
  - exact Hp.
  - apply IH. apply place_category_well_placed; assumption.
Qed.

Lemma place_lines_well_placed st :
  (0 < min_space_y st)%Q -> well_placed (min_space_y st) (place_lines st).
Proof.
  intros Hm. unfold place_lines.
  apply (fold_place_category_well_placed (min_space_y st)
           (seq 0 (length (ratios st)))
           (1%Q, {| last_text_y := None; pass_layout := st; plot_data := [] |}) Hm).
  repeat split. constructor.
Qed.

(** The branch resolver moves rows sideways only. *)
Lemma adjust_step_text_y msx d r cb : text_y (fst (adjust_step msx d r cb)) = text_y r.
Proof.
  unfold adjust_step.
  destruct (line_x_points r), (line_y_points r); try reflexivity.
  destruct (negb (Z.lor _ _ =? 0)); reflexivity.
Qed.

Lemma adjust_from_last_labels msx d data :
  label_ys (fst (adjust_from_last msx d data)) = label_ys data.
Proof.
  induction data as [|r rest IH]; [reflexivity|].
  simpl. destruct (adjust_from_last msx d rest) as [rest' cb]. simpl in IH.
  pose proof (adjust_step_text_y msx d r cb) as H.
  destruct (adjust_step msx d r cb) as [r' cb']. simpl in *.
  unfold label_ys in *. simpl. rewrite H, IH. reflexivity.
Qed.

(** Taking the searched row out keeps the others in order. *)
Lemma isolate_searched_labels (R : relation Q) q data :
  StronglySorted R (label_ys data) ->
  StronglySorted R (label_ys (fst (isolate_searched q data)))
  /\ forall y, y ∈ label_ys (fst (isolate_searched q data)) -> y ∈ label_ys data.
Proof.
  induction data as [|r rest IH]; intros Hs.
  - simpl. split; [exact Hs | auto].
  - assert (Hrest : StronglySorted R (label_ys rest)).
    { unfold label_ys in *. simpl in Hs. destruct (text_y r); [|exact Hs].
      apply StronglySorted_cons in Hs. tauto. }
    destruct (IH Hrest) as [IH1 IH2].
    assert (Hkeep : StronglySorted R (label_ys (r :: fst (isolate_searched q rest)))
                    /\ forall y, y ∈ label_ys (r :: fst (isolate_searched q rest)) ->
                                 y ∈ label_ys (r :: rest)).
    { unfold label_ys in *. simpl. simpl in Hs.
      destruct (text_y r) as [y0|]; [|split; assumption].
      apply StronglySorted_cons in Hs as [Hall _].
      split.
      - apply StronglySorted_cons. split; [|exact IH1].
        rewrite Forall_forall in *. intros y Hy. apply Hall, IH2, Hy.
      - intros y Hy. apply elem_of_cons in Hy as [->|Hy].
        + apply elem_of_cons. left. reflexivity.
        + apply elem_of_cons. right. apply IH2, Hy. }
    simpl. destruct (isolate_searched q rest) as [rest' found]. simpl in *.
    destruct found as [|f found].
    + destruct (is_searched q r); simpl; [|exact Hkeep].
      split; [exact IH1|].
      intros y Hy. unfold label_ys. simpl.
      destruct (text_y r); [apply elem_of_cons; right|]; apply IH2, Hy.
    + simpl. exact Hkeep.
Qed.

(** C2: with a positive [min_space_y], the labels of a pass lie, in
    placement order, each at least [min_space_y] below every label placed
    before it (so strictly descending, bands included), every placed row
    has a label, and the same holds of the rows left in the plot source. *)
Theorem build_plot_data_labels_apart (st : Layout) :
  (0 < min_space_y st)%Q ->
  let placed := plot_data (place_lines st) in
  length (label_ys placed) = length placed
  /\ StronglySorted (apart (min_space_y st)) (label_ys placed)
  /\ (forall i a b,
        label_ys placed !! i = Some a -> label_ys placed !! (S i) = Some b ->
        (b + min_space_y st <= a)%Q /\ (b < a)%Q)
  /\ StronglySorted (apart (min_space_y st))
       (label_ys (source (build_plot_data st))).
Proof.
  intros Hm placed.
  destruct (place_lines_well_placed st Hm) as (_ & Hlen & Hs & _).
  fold placed in Hlen, Hs.
  split; [exact Hlen|]. split; [exact Hs|]. split.
  - intros i a b Ha Hb.
    pose proof (take_drop_middle _ _ _ Ha) as Hsplit.
    rewrite <- Hsplit in Hs.
    apply StronglySorted_app in Hs as (_ & _ & Hs).
    apply StronglySorted_cons in Hs as [Hall _].
    rewrite Forall_forall in Hall. apply Hall.
    apply list_elem_of_lookup. exists 0%nat.
    rewrite lookup_drop. rewrite Nat.add_0_r. exact Hb.
  - unfold build_plot_data. fold placed.
    pose proof (adjust_from_last_labels
                  (min_space_x (pass_layout (place_lines st))) Rightward placed) as Ha.
    pose proof (isolate_searched_labels (apart (min_space_y st)) (last_searched st)
                  (adjust_branches (pass_layout (place_lines st)) placed Rightward)) as Hi.
    unfold adjust_branches in *. rewrite Ha in Hi.
    destruct (Hi Hs) as [Hi1 _].
    destruct (isolate_searched _ _) as [d s]. simpl in *. exact Hi1.
Qed.

Lemma build_plot_data_labels_apart_witness :
  (0 < min_space_y demo_layout)%Q
  /\ StronglySorted (apart (min_space_y demo_layout))
       (label_ys (plot_data (place_lines demo_layout))).
Proof.
  assert (H : (0 < min_space_y demo_layout)%Q) by (vm_compute; reflexivity).
  split; [exact H|].
  exact (proj1 (proj2 (build_plot_data_labels_apart demo_layout H))).
Defined.

(** ** Branch resolver *)

Lemma run_below_cons r rest :
  run_below (r :: rest)
  = match branch_flag r with
    | None => run_below rest
    | Some true => run_below rest + 1
    | Some false => 0
    end.
Proof.
  unfold run_below.
  change (omap branch_flag (r :: rest))
    with (match branch_flag r with
          | Some b => b :: omap branch_flag rest
          | None => omap branch_flag rest
          end).
  destruct (branch_flag r) as [[|]|]; cbn [leading_run]; lia.
Qed.

Lemma run_below_nonneg l : 0 <= run_below l.
Proof. unfold run_below. lia. Qed.

Lemma adjust_step_spec msx d r cb :
  adjust_step msx d r cb
  = (resolved msx d cb r,
     match branch_flag r with
     | None => cb
     | Some true => cb + 1
     | Some false => 0
     end).
Proof.
  unfold adjust_step, resolved, branch_flag.
  destruct (line_x_points r) as [xs|]; [|reflexivity].
  destruct (line_y_points r) as [ys|]; [|reflexivity].
  destruct (is_branched ys); cbn [Z.b2z orb negb].
  - destruct (Z.lor 1 cb =? 0) eqn:E.
    + apply Z.eqb_eq, Z.lor_eq_0_iff in E. lia.
    + cbn [negb]. destruct d; reflexivity.
  - rewrite Z.lor_0_l. destruct (cb =? 0); cbn [negb]; [reflexivity|].
    destruct d; reflexivity.
Qed.

Lemma adjust_from_last_spec msx d data :
  snd (adjust_from_last msx d data) = run_below data
  /\ forall i r, data !! i = Some r ->
       fst (adjust_from_last msx d data) !! i
       = Some (resolved msx d (run_below (drop (S i) data)) r).
Proof.
  induction data as [|r0 rest [IH1 IH2]]; [split; [reflexivity | intros i r H; inversion H]|].
  simpl. destruct (adjust_from_last msx d rest) as [rest' cb]. simpl in *.
  rewrite adjust_step_spec, run_below_cons. subst cb. simpl.
  split; [reflexivity|].
  intros [|i] r H; simpl in *.
  - injection H as ->. rewrite drop_0. reflexivity.
  - apply IH2, H.
Qed.





(** ** Categorizer *)

Lemma nth_insert {A} (l : list A) i j x d :
  nth j (<[i := x]> l) d
  = if decide (i = j /\ (i < length l)%nat) then x else nth j l d.
Proof.
  rewrite !nth_lookup, list_lookup_insert.
  destruct (decide _); reflexivity.
Qed.

Lemma left_only_nil pc right : left_only pc [] right = [].
Proof. reflexivity. Qed.

Lemma resolve_ties_fold pc m : forall ce i,
  nth i (fold_left
           (fun ce i => <[i := left_only pc (nth i ce []) (nth (i - 1) ce [])]> ce)
           (rev (seq 1 m)) ce) []
  = if (1 <=? i)%nat && (i <=? m)%nat
    then left_only pc (nth i ce []) (nth (i - 1) ce [])
    else nth i ce [].
Proof.
  induction m as [|m IH]; intros ce i.
  - cbn [seq rev fold_left].
    destruct (1 <=? i)%nat eqn:E1; cbn [andb]; [|reflexivity].
    destruct (i <=? 0)%nat eqn:E2; [|reflexivity].
    apply Nat.leb_le in E1, E2. lia.
  - rewrite seq_S, rev_app_distr. simpl rev. simpl app.
    cbn [fold_left]. rewrite IH.
    replace (1 + m - 1)%nat with m by lia.
    change (1 + m)%nat with (S m).
    destruct (1 <=? i)%nat eqn:E1; simpl.
    + apply Nat.leb_le in E1.
      destruct (i <=? m)%nat eqn:E2.
      * apply Nat.leb_le in E2.
        assert (E3 : (i <=? S m)%nat = true) by (apply Nat.leb_le; lia).
        rewrite E3, !nth_insert.
        destruct (decide (S m = i /\ _)) as [[? _]|_]; [lia|].
        destruct (decide (S m = (i - 1)%nat /\ _)) as [[? _]|_]; [lia|].
        reflexivity.
      * apply Nat.leb_gt in E2.
        destruct (i <=? S m)%nat eqn:E3.
        -- apply Nat.leb_le in E3. assert (i = S m) as -> by lia.
           rewrite nth_insert. cbn [Nat.sub]. rewrite ?Nat.sub_0_r.
           destruct (decide _) as [_|Hn]; [reflexivity|].
           assert (Hge : (length ce <= S m)%nat) by lia.
           rewrite (nth_overflow ce [] Hge). reflexivity.
        -- apply Nat.leb_gt in E3. rewrite nth_insert.
           destruct (decide _) as [[? _]|_]; [lia|reflexivity].
    + apply Nat.leb_gt in E1. assert (i = 0)%nat as -> by lia.
      rewrite nth_insert.
      destruct (decide _) as [[? _]|_]; [lia|reflexivity].
Qed.

Lemma same_row_refl pc e : same_row pc e e = true.
Proof.
  unfold same_row. rewrite !String.eqb_refl, !Z.eqb_refl, orb_true_r.
  reflexivity.
Qed.

Lemma same_row_incidence pc a b :
  same_row pc a b = true ->
  primary_incidence a = primary_incidence b
  /\ secondary_incidence a = secondary_incidence b.
Proof.
  unfold same_row. rewrite !andb_true_iff, !Z.eqb_eq. tauto.
Qed.

Lemma get_incidence_key_cases st i :
  get_incidence_key st i = PrimaryIncidenceKey
  \/ get_incidence_key st i = SecondaryIncidenceKey.
Proof. unfold get_incidence_key. destruct (nth _ _ _); auto. Qed.

Lemma in_category_same_row st pc i a b :
  same_row pc a b = true -> in_category st i a = in_category st i b.
Proof.
  intros H. apply same_row_incidence in H as [Hp Hs].
  unfold in_category.
  destruct (get_incidence_key_cases st i) as [-> | ->]; simpl; rewrite ?Hp, ?Hs;
    reflexivity.
Qed.

Lemma filter_filter {A} (f g : A -> bool) l :
  List.filter f (List.filter g l) = List.filter (fun x => g x && f x) l.
Proof.
  induction l as [|x l IH]; [reflexivity|].
  simpl. destruct (g x); simpl; [destruct (f x)|]; rewrite ?IH; reflexivity.
Qed.

Lemma left_only_masks st pc i j l :
  left_only pc (List.filter (in_category st i) l) (List.filter (in_category st j) l)
  = List.filter (fun e => in_category st i e && negb (in_category st j e)) l.
Proof.
  unfold left_only. rewrite filter_filter.
  apply filter_ext_in. intros e He. f_equal. f_equal.
  destruct (in_category st j e) eqn:E.
  - apply existsb_exists. exists e. split; [|apply same_row_refl].
    apply filter_In. auto.
  - destruct (existsb _ _) eqn:E'; [|reflexivity].
    apply existsb_exists in E' as (e' & He' & Hs).
    apply filter_In in He' as [_ He'].
    rewrite (in_category_same_row st pc j e e' Hs) in E. congruence.
Qed.

Lemma nth_map_seq {A} (f : nat -> A) n i d :
  (i < n)%nat -> nth i (map f (seq 0 n)) d = f i.
Proof.
  intros H. rewrite nth_lookup.
  change (map f (seq 0 n)) with (f <$> seq 0 n).
  rewrite list_lookup_fmap, lookup_seq_lt by lia. reflexivity.
Qed.

(** After the tie-break pass the pool of category [i] holds the rows of
    the table in its mask and outside the mask of category [i - 1]. *)
Lemma categorize_entries_pool st st' i :
  categorize_entries st = Ok st' ->
  (i < num_categories st)%nat ->
  pool st' i = List.filter (assigned st i) (rows (input_table st)).
Proof.
  intros H Hi. apply categorize_entries_Ok in H as (-> & _ & _).
  unfold pool. cbn [categorized_entries set_categorized_entries].
  unfold resolve_ties. rewrite resolve_ties_fold.
  destruct i as [|i].
  - simpl. rewrite nth_map_seq by lia. unfold assigned.
    apply filter_ext. intros e. rewrite andb_true_r. reflexivity.
  - assert (E : ((1 <=? S i)%nat && (S i <=? num_categories st - 1)%nat) = true).
    { apply andb_true_iff. split; apply Nat.leb_le; lia. }
    rewrite E. replace (S i - 1)%nat with i by lia.
    rewrite !nth_map_seq by lia.
    apply left_only_masks.
Qed.

Lemma in_category_true st i e :
  in_category st i e = true <->
  let x := column (get_incidence_key st i) e in
  let lo := nth i (lower_bounds st) 0 in
  let hi := nth (S i) (lower_bounds st) 0 in
  lo <= x /\ (x < hi \/ (lo = hi /\ x = hi)).
Proof.
  unfold in_category. cbv zeta.
  rewrite andb_true_iff, orb_true_iff, andb_true_iff.
  rewrite Z.leb_le, Z.ltb_lt, !Z.eqb_eq. reflexivity.
Qed.

Lemma fold_max_ge l : forall a, a <= fold_left Z.max l a
  /\ forall x, In x l -> x <= fold_left Z.max l a.
Proof.
  induction l as [|y l IH]; intros a; simpl.
  - split; [lia | tauto].
  - destruct (IH (Z.max a y)) as [H1 H2]. split; [lia|].
    intros x [<-|Hx]; [lia | auto].
Qed.

Lemma col_max_ge l x : In x l -> x <= col_max l.
Proof.
  destruct l as [|a l]; [intros []|].
  simpl. destruct (fold_max_ge l a) as [H1 H2].
  intros [<-|Hx]; auto.
Qed.

Lemma sorted_nth l : Sorted Z.le l ->
  forall i j, (i <= j < length l)%nat -> nth i l 0 <= nth j l 0.
Proof.
  intros Hs. apply Sorted_StronglySorted in Hs; [|intros x y z; lia].
  induction Hs as [|a l Hs IH Hall]; intros i j Hij; simpl in Hij; [lia|].
  destruct i as [|i], j as [|j]; simpl; try lia.
  - rewrite Forall_forall in Hall. apply Hall.
    apply list_elem_of_In, nth_In. lia.
  - apply IH. lia.
Qed.

Section Partition.
Variable st : Layout.
Variable n : nat.
Let b (i : nat) : Z := nth i (lower_bounds st) 0.

Hypothesis primary_only :
  forall i, get_incidence_key st i = PrimaryIncidenceKey.
Hypothesis bounds_monotone :
  forall i j, (i <= j < n)%nat -> b i <= b j.

Lemma in_category_primary i e :
  in_category st i e = true <->
  b i <= primary_incidence e
  /\ (primary_incidence e < b (S i)
      \/ (b i = b (S i) /\ primary_incidence e = b (S i))).
Proof. rewrite in_category_true, primary_only. reflexivity. Qed.

Lemma in_category_false i e :
  in_category st i e = false <->
  ~ (b i <= primary_incidence e
     /\ (primary_incidence e < b (S i)
         \/ (b i = b (S i) /\ primary_incidence e = b (S i)))).
Proof.
  rewrite <- in_category_primary.
  destruct (in_category st i e); split; intros H.
  - discriminate.
  - exfalso. apply H. reflexivity.
  - discriminate.
  - reflexivity.
Qed.

(** A row assigned to a category is in the mask of no category before it. *)
Lemma assigned_lowest i e :
  (i < n)%nat -> assigned st i e = true ->
  forall j, (j < i)%nat -> in_category st j e = false.
Proof.
  unfold assigned. intros Hi H j Hj.
  apply andb_true_iff in H as [Hin Hprev].
  destruct i as [|i]; [lia|].
  apply negb_true_iff in Hprev.
  destruct (Nat.eq_dec j i) as [->|Hne]; [exact Hprev|].
  apply in_category_primary in Hin.
  apply in_category_false in Hprev.
  apply in_category_false.
  pose proof (bounds_monotone (S j) i ltac:(lia)).
  pose proof (bounds_monotone i (S i) ltac:(lia)).
  lia.
Qed.

Lemma assigned_unique i j e :
  (i < n)%nat -> (j < n)%nat ->
  assigned st i e = true -> assigned st j e = true -> i = j.
Proof.
  intros Hi Hj Hai Haj.
  destruct (Nat.lt_trichotomy i j) as [H|[H|H]]; [|exact H|].
  - pose proof (assigned_lowest j e Hj Haj i H) as F.
    unfold assigned in Hai. apply andb_true_iff in Hai as [Hai _]. congruence.
  - pose proof (assigned_lowest i e Hi Hai j H) as F.
    unfold assigned in Haj. apply andb_true_iff in Haj as [Haj _]. congruence.
Qed.

(** The first category whose mask holds a row is the one it is assigned to. *)
Lemma first_category i e :
  in_category st i e = true ->
  exists i0, (i0 <= i)%nat /\ assigned st i0 e = true.
Proof.
  induction i as [|i IH]; intros H.
  - exists 0%nat. split; [lia|]. unfold assigned. rewrite H. reflexivity.
  - destruct (in_category st i e) eqn:E.
    + destruct (IH eq_refl) as (i0 & Hi0 & Ha). exists i0. split; [lia|exact Ha].
    + exists (S i). split; [lia|]. unfold assigned. rewrite H, E. reflexivity.
Qed.

Lemma some_category e :
  b 0%nat <= primary_incidence e < b n ->
  exists i, (i < n)%nat /\ in_category st i e = true.
Proof.
  intros [Hlo Hhi].
  assert (Hn : (0 < n)%nat).
  { destruct n; [lia|lia]. }
  assert (Hlast : forall m, (0 < m <= n)%nat ->
            exists i, (i < m)%nat /\ b i <= primary_incidence e
                      /\ ((S i < m)%nat -> primary_incidence e < b (S i))).
  { induction m as [|m IHm]; intros Hm; [lia|].
    destruct m as [|m].
    - exists 0%nat. split; [lia|]. split; [exact Hlo|lia].
    - destruct (Z_le_gt_dec (b (S m)) (primary_incidence e)) as [Hle|Hgt].
      + exists (S m). split; [lia|]. split; [exact Hle|lia].
      + destruct IHm as (i & Hi & Hbi & Hnext); [lia|].
        exists i. split; [lia|]. split; [exact Hbi|].
        intros Hlt. destruct (Nat.eq_dec (S i) (S m)) as [Heq|Hne].
        * rewrite Heq. lia.
        * apply Hnext. lia. }
  destruct (Hlast n ltac:(lia)) as (i & Hi & Hbi & Hnext).
  exists i. split; [exact Hi|].
  apply in_category_primary. split; [exact Hbi|]. left.
  destruct (Nat.eq_dec (S i) n) as [Heq|Hne].
  - rewrite Heq. exact Hhi.
  - apply Hnext. lia.
Qed.

Lemma in_category_above_floor i e :
  (i < n)%nat -> in_category st i e = true -> b 0%nat <= primary_incidence e.
Proof.
  intros Hi H. apply in_category_primary in H as [H _].
  pose proof (bounds_monotone 0%nat i ltac:(lia)). lia.
Qed.
End Partition.

Lemma assigned_ext st st' i e :
  lower_bounds st = lower_bounds st' ->
  calc_with_secondary_incidence st = calc_with_secondary_incidence st' ->
  assigned st i e = assigned st' i e.
Proof.
  intros Hb Hc. unfold assigned, in_category, get_incidence_key.
  rewrite Hb, Hc. reflexivity.
Qed.

Lemma in_category_ext st st' i e :
  lower_bounds st = lower_bounds st' ->
  calc_with_secondary_incidence st = calc_with_secondary_incidence st' ->
  in_category st i e = in_category st' i e.
Proof.
  intros Hb Hc. unfold in_category, get_incidence_key.
  rewrite Hb, Hc. reflexivity.
Qed.

(** What construction leaves in the attributes the categorizer and the
    proportion calculator own. *)
Lemma init_fields c table st0 :
  init c table = Ok st0 ->
  input_table st0 = table
  /\ num_categories st0 = length (Cfg.labels c)
  /\ lower_bounds st0
     = Cfg.lower_bounds c ++ [col_max (map primary_incidence (rows table)) + 1]
  /\ calc_with_secondary_incidence st0 = Cfg.calc_with_secondary_incidence c
  /\ (forall i, (i < num_categories st0)%nat ->
        pool st0 i = List.filter (assigned st0 i) (rows table))
  /\ ratios st0
     = map (fun i =>
              (inject_Z (Z.of_nat (length (pool st0 i)))
               / inject_Z (Z.of_nat (length (rows table))))%Q)
           (seq 0 (num_categories st0))
  /\ (num_categories st0 = 0 \/ length (rows table) <> 0)%nat.
Proof.
  intros H. destruct (init_Ok _ _ _ H) as (st1 & st2 & H1 & H2 & ->).
  pose proof (fun i => categorize_entries_pool _ _ i H1) as Hpool.
  apply categorize_entries_Ok in H1 as (E1 & _ & _).
  apply calculate_ratios_Ok in H2 as (E2 & Hne).
  set (st3 := init_sorting_criteria st2).
  set (st0 := build_plot_data (build_display_regions st3)).
  assert (Hf : frozen st0 = frozen st3).
  { unfold st0. rewrite build_plot_data_frozen.
    apply (build_display_regions_frozen st3). }
  assert (F1 : input_table st0 = table).
  { change (input_table (frozen st0) = table). rewrite Hf.
    unfold st3. rewrite E2, E1. reflexivity. }
  assert (F2 : num_categories st0 = length (Cfg.labels c)).
  { change (num_categories (frozen st0) = length (Cfg.labels c)). rewrite Hf.
    unfold st3. rewrite E2, E1. reflexivity. }
  assert (F3 : lower_bounds st0 = lower_bounds (new_layout c table)).
  { change (lower_bounds (frozen st0) = lower_bounds (new_layout c table)).
    rewrite Hf. unfold st3. rewrite E2, E1. reflexivity. }
  assert (F4 : calc_with_secondary_incidence st0
               = calc_with_secondary_incidence (new_layout c table)).
  { change (calc_with_secondary_incidence (frozen st0)
            = calc_with_secondary_incidence (new_layout c table)).
    rewrite Hf. unfold st3. rewrite E2, E1. reflexivity. }
  assert (F5 : categorized_entries st0 = categorized_entries st1).
  { change (categorized_entries (frozen st0) = categorized_entries st1).
    rewrite Hf. unfold st3. rewrite E2. reflexivity. }
  assert (F6 : ratios st0 = ratios st2).
  { change (ratios (frozen st0) = ratios st2). rewrite Hf. reflexivity. }
  assert (N1 : num_categories st1 = length (Cfg.labels c)) by (rewrite E1; reflexivity).
  assert (T1 : input_table st1 = table) by (rewrite E1; reflexivity).
  repeat split; try assumption.
  - intros i Hi. unfold pool. rewrite F5.
    change (nth i (categorized_entries st1) []) with (pool st1 i).
    rewrite Hpool by (rewrite F2 in Hi; exact Hi).
    apply filter_ext. intros e. symmetry. apply assigned_ext; assumption.
  - rewrite F6, E2. cbn [ratios set_ratios]. rewrite N1, T1, F2.
    apply map_ext. intros i. unfold pool. rewrite F5. reflexivity.
  - rewrite F2, <- N1, <- T1. exact Hne.
Qed.

Lemma all_false_nth l i : Forall (eq false) l -> nth i l false = false.
Proof.
  intros H. revert i. induction H as [|x l Hx _ IH]; intros [|i]; simpl; auto.
Qed.

(** The three hypotheses of [Section Partition] from a configuration
    whose bounds are non-decreasing, one per label, and whose categories
    all read the primary incidence. *)
Lemma valid_config_partition c table st :
  init c table = Ok st ->
  length (Cfg.lower_bounds c) = length (Cfg.labels c) ->
  Sorted Z.le (Cfg.lower_bounds c) ->
  Forall (eq false) (Cfg.calc_with_secondary_incidence c) ->
  (forall i, get_incidence_key st i = PrimaryIncidenceKey)
  /\ (forall i j, (i <= j < num_categories st)%nat ->
        nth i (lower_bounds st) 0 <= nth j (lower_bounds st) 0)
  /\ (forall e, In e (rows table) ->
        primary_incidence e < nth (num_categories st) (lower_bounds st) 0).
Proof.
  intros Hinit Hlen Hsorted Hprim.
  destruct (init_fields _ _ _ Hinit) as (_ & Hn & Hb & Hc & _).
  split; [|split].
  - intros i. unfold get_incidence_key. rewrite Hc, all_false_nth by assumption.
    reflexivity.
  - intros i j Hij. rewrite Hn, <- Hlen in Hij. rewrite Hb.
    rewrite !app_nth1 by lia. apply sorted_nth; assumption.
  - intros e He. rewrite Hb, Hn, <- Hlen, app_nth2, Nat.sub_diag by lia. simpl.
    assert (primary_incidence e <= col_max (map primary_incidence (rows table))).
    { apply col_max_ge, in_map, He. }
    lia.
Qed.

(** X18: when the bounds are non-decreasing, one per
    label, and every category reads the primary incidence, the pools after
    the tie-break pass are pairwise disjoint; a pool holds exactly the
    rows in its mask that are in the mask of no lower-indexed category (a
    row on a shared boundary goes to the lower index); and the union of
    the pools is the set of rows with incidence in [[bounds[0], bounds[N])]. *)
Theorem categorize_entries_partition (c : Cfg.t) (table : Table) (st : Layout) :
  init c table = Ok st ->
  length (Cfg.lower_bounds c) = length (Cfg.labels c) ->
  Sorted Z.le (Cfg.lower_bounds c) ->
  Forall (eq false) (Cfg.calc_with_secondary_incidence c) ->
  let n := num_categories st in
  let b i := nth i (lower_bounds st) 0 in
  (forall i j e, (i < n)%nat -> (j < n)%nat -> i <> j ->
     In e (pool st i) -> In e (pool st j) -> False)
  /\ (forall i e, (i < n)%nat ->
        (In e (pool st i) <->
         In e (rows table) /\ in_category st i e = true
         /\ forall j, (j < i)%nat -> in_category st j e = false))
  /\ (forall e,
        (exists i, (i < n)%nat /\ In e (pool st i)) <->
        In e (rows table) /\ b 0%nat <= primary_incidence e < b n).
Proof.
  intros Hinit Hlen Hsorted Hprim n b.
  destruct (valid_config_partition _ _ _ Hinit Hlen Hsorted Hprim)
    as (Hkey & Hmono & Hmax).
  destruct (init_fields _ _ _ Hinit) as (_ & _ & _ & _ & Hpool & _).
  fold n in Hmono, Hmax, Hpool.
  assert (Hin : forall i e, (i < n)%nat ->
            (In e (pool st i) <-> In e (rows table) /\ assigned st i e = true)).
  { intros i e Hi. rewrite Hpool by exact Hi. apply filter_In. }
  split; [|split].
  - intros i j e Hi Hj Hne Hei Hej.
    apply (Hin i e Hi) in Hei as [_ Hai].
    apply (Hin j e Hj) in Hej as [_ Haj].
    apply Hne. exact (assigned_unique st n Hkey Hmono i j e Hi Hj Hai Haj).
  - intros i e Hi. rewrite (Hin i e Hi). split.
    + intros [He Ha]. split; [exact He|]. split.
      * unfold assigned in Ha. apply andb_true_iff in Ha. tauto.
      * exact (assigned_lowest st n Hkey Hmono i e Hi Ha).
    + intros (He & Hc & Hlow). split; [exact He|].
      unfold assigned. rewrite Hc. destruct i as [|i]; [reflexivity|].
      rewrite (Hlow i) by lia. reflexivity.
  - intros e. split.
    + intros (i & Hi & Hei). apply (Hin i e Hi) in Hei as [He Ha].
      split; [exact He|]. split.
      * unfold assigned in Ha. apply andb_true_iff in Ha as [Ha _].
        exact (in_category_above_floor st n Hkey Hmono i e Hi Ha).
      * apply Hmax, He.
    + intros (He & Hrange).
      destruct (some_category st n Hkey Hmono e Hrange) as (i & Hi & Hc).
      destruct (first_category st i e Hc) as (i0 & Hi0 & Ha).
      exists i0. split; [lia|]. apply Hin; [lia|]. split; assumption.
Qed.

Lemma categorize_entries_partition_witness :
  init demo_cfg demo_table = Ok demo_layout
  /\ exists i, (i < num_categories demo_layout)%nat
               /\ In (entry "c" "1002" 3 1 0) (pool demo_layout i).
Proof.
  assert (H : init demo_cfg demo_table = Ok demo_layout)
    by (vm_compute; reflexivity).
  assert (Hlen : length (Cfg.lower_bounds demo_cfg) = length (Cfg.labels demo_cfg))
    by reflexivity.
  assert (Hsorted : Sorted Z.le (Cfg.lower_bounds demo_cfg))
    by (repeat constructor; discriminate).
  assert (Hprim : Forall (eq false) (Cfg.calc_with_secondary_incidence demo_cfg))
    by (repeat constructor).
  assert (Hin : In (entry "c" "1002" 3 1 0) (rows demo_table))
    by (simpl; tauto).
  assert (Hrange :
            nth 0 (lower_bounds demo_layout) 0
            <= primary_incidence (entry "c" "1002" 3 1 0)
            < nth (num_categories demo_layout) (lower_bounds demo_layout) 0).
  { vm_compute. split; [discriminate | reflexivity]. }
  exact (conj H
           (proj2 (proj2 (proj2 (categorize_entries_partition demo_cfg demo_table
                                   demo_layout H Hlen Hsorted Hprim))
                     (entry "c" "1002" 3 1 0))
              (conj Hin Hrange))).
Defined.

(** C1 at a configuration whose categories read different incidence
    columns (flags [[false; true; true]], bounds [[0; 10; 20]]): row [a],
    primary 5 and secondary 25, is in pool 0 by its primary and in pool 2
    by its secondary incidence; the tie-break pass compares pool 2 with
    pool 1 only and leaves the row in both. *)
Theorem pools_overlap_with_mixed_keys :
  init mixed_cfg mixed_table = Ok mixed_layout
  /\ In (entry "a" "1000" 5 25 3) (pool mixed_layout 0)
  /\ In (entry "a" "1000" 5 25 3) (pool mixed_layout 2).
Proof.
  split; [vm_compute; reflexivity|].
  split; vm_compute; left; reflexivity.
Qed.

(** ** Proportion calculator *)

Lemma Qsum_ratios (g : nat -> nat) (q : Q) l :
  (Qsum (map (fun i => inject_Z (Z.of_nat (g i)) / q) l)
   == inject_Z (Z.of_nat (list_sum (map g l))) / q)%Q.
Proof.
  induction l as [|i l IH]; simpl.
  - unfold Qdiv. ring.
  - rewrite IH, Nat2Z.inj_add, inject_Z_plus. unfold Qdiv. ring.
Qed.

Lemma list_sum_map_add {A} (f g : A -> nat) l :
  list_sum (map (fun i => f i + g i)%nat l)
  = (list_sum (map f l) + list_sum (map g l))%nat.
Proof. induction l as [|x l IH]; simpl; lia. Qed.

Lemma list_sum_indicator n i0 :
  list_sum (map (fun i => Nat.b2n (i =? i0)%nat) (seq 0 n))
  = if (i0 <? n)%nat then 1%nat else 0%nat.
Proof.
  induction n as [|n IH].
  - reflexivity.
  - rewrite seq_S, map_app, list_sum_app, IH, Nat.add_0_l.
    cbn [map list_sum]. rewrite ?Nat.add_0_r.
    destruct (Nat.ltb_spec i0 n), (Nat.ltb_spec i0 (S n)), (Nat.eqb_spec n i0);
      cbn [Nat.b2n]; simpl; lia.
Qed.

Lemma list_sum_exactly_one (f : nat -> bool) n i0 :
  (i0 < n)%nat -> f i0 = true ->
  (forall j, (j < n)%nat -> f j = true -> j = i0) ->
  list_sum (map (fun i => Nat.b2n (f i)) (seq 0 n)) = 1%nat.
Proof.
  intros Hi Hf Huniq.
  rewrite (map_ext_in _ (fun i => Nat.b2n (i =? i0)%nat)).
  - rewrite list_sum_indicator. apply Nat.ltb_lt in Hi. rewrite Hi. reflexivity.
  - intros j Hj. apply in_seq in Hj.
    destruct (f j) eqn:E.
    + rewrite (Huniq j ltac:(lia) E), Nat.eqb_refl. reflexivity.
    + destruct (j =? i0)%nat eqn:E'; [|reflexivity].
      apply Nat.eqb_eq in E'. subst. congruence.
Qed.

(** Masks that split the rows leave as many rows in the pools as the
    table has. *)
Lemma filter_partition_length {A} (p : nat -> A -> bool) n (l : list A) :
  (forall e, In e l ->
     exists i0, (i0 < n)%nat /\ p i0 e = true
                /\ forall j, (j < n)%nat -> p j e = true -> j = i0) ->
  list_sum (map (fun i => length (List.filter (p i) l)) (seq 0 n)) = length l.
Proof.
  induction l as [|e l IH]; intros H.
  - simpl. induction (seq 0 n); simpl; auto.
  - rewrite (map_ext _ (fun i => (Nat.b2n (p i e)
                                   + length (List.filter (p i) l))%nat)).
    + rewrite list_sum_map_add, IH.
      * destruct (H e) as (i0 & Hi & Hp & Hu); [left; reflexivity|].
        rewrite (list_sum_exactly_one (fun i => p i e) n i0 Hi Hp Hu).
        reflexivity.
      * intros e' He'. apply H. right. exact He'.
    + intros i. simpl. destruct (p i e); reflexivity.
Qed.

(** C5, as the code has it: for a non-empty table whose rows all have a
    primary incidence of at least [bounds[0]], under non-decreasing bounds,
    one per label, and categories that all read the primary incidence, the
    ratios [|pool[i]| / total_row_count] sum to exactly 1. *)
Theorem ratios_sum_to_one (c : Cfg.t) (table : Table) (st : Layout) :
  init c table = Ok st ->
  length (Cfg.lower_bounds c) = length (Cfg.labels c) ->
  Sorted Z.le (Cfg.lower_bounds c) ->
  Forall (eq false) (Cfg.calc_with_secondary_incidence c) ->
  rows table <> [] ->
  (forall e, In e (rows table) ->
     nth 0 (lower_bounds st) 0 <= primary_incidence e) ->
  (Qsum (ratios st) == 1)%Q.
Proof.
  intros Hinit Hlen Hsorted Hprim Hne Hfloor.
  destruct (valid_config_partition _ _ _ Hinit Hlen Hsorted Hprim)
    as (Hkey & Hmono & Hmax).
  destruct (init_fields _ _ _ Hinit) as (_ & _ & _ & _ & Hpool & Hratios & _).
  rewrite Hratios.
  rewrite (Qsum_ratios (fun i => length (pool st i))).
  rewrite (map_ext_in _ (fun i => length (List.filter (assigned st i) (rows table)))).
  - rewrite filter_partition_length.
    + assert (Hpos : ~ (inject_Z (Z.of_nat (length (rows table))) == 0)%Q).
      { change 0%Q with (inject_Z 0). rewrite inject_Z_injective.
        destruct (rows table); [congruence | simpl; lia]. }
      field. exact Hpos.
    + intros e He.
      destruct (some_category st (num_categories st) Hkey Hmono e
                  (conj (Hfloor e He) (Hmax e He))) as (i & Hi & Hc).
      destruct (first_category st i e Hc) as (i0 & Hi0 & Ha).
      exists i0. split; [lia|]. split; [exact Ha|].
      intros j Hj Haj.
      exact (assigned_unique st (num_categories st) Hkey Hmono j i0 e
               Hj ltac:(lia) Haj Ha).
  - intros i Hi. apply in_seq in Hi. rewrite Hpool by lia. reflexivity.
Qed.

Lemma ratios_sum_to_one_witness :
  init demo_cfg demo_table = Ok demo_layout
  /\ (Qsum (ratios demo_layout) == 1)%Q.
Proof.
  assert (H : init demo_cfg demo_table = Ok demo_layout)
    by (vm_compute; reflexivity).
  assert (Hlen : length (Cfg.lower_bounds demo_cfg) = length (Cfg.labels demo_cfg))
    by reflexivity.
  assert (Hsorted : Sorted Z.le (Cfg.lower_bounds demo_cfg))
    by (repeat constructor; discriminate).
  assert (Hprim : Forall (eq false) (Cfg.calc_with_secondary_incidence demo_cfg))
    by (repeat constructor).
  assert (Hne : rows demo_table <> []) by discriminate.
  assert (Hb : nth 0 (lower_bounds demo_layout) 0 = 0)
    by (vm_compute; reflexivity).
  assert (Hfloor : forall e, In e (rows demo_table) ->
                     nth 0 (lower_bounds demo_layout) 0 <= primary_incidence e).
  { rewrite Hb. intros e He. simpl in He.
    repeat (destruct He as [<-|He]; [discriminate|]). destruct He. }
  exact (conj H (ratios_sum_to_one demo_cfg demo_table demo_layout
                   H Hlen Hsorted Hprim Hne Hfloor)).
Defined.

(** C5 as stated fails when a row lies below the lowest bound: with
    bounds [[1, 20]] the row of incidence 0 is in no pool, and the ratios
    of the two-row table are 1/2 and 0. *)
Lemma ratios_sum_below_one :
  init high_floor_cfg high_floor_table = Ok high_floor_layout
  /\ rows high_floor_table <> []
  /\ (Qsum (ratios high_floor_layout) == 1 # 2)%Q
  /\ ~ (Qsum (ratios high_floor_layout) == 1)%Q.
Proof.
  split; [vm_compute; reflexivity|].
  split; [discriminate|].
  split; [vm_compute; reflexivity|].
  vm_compute. discriminate.
Qed.

(** ** Display selector *)

(** C3 at [min_display_regions = 0]: the second category has ratio 1/13,
    so its display count is [max(floor(12/13), 0) = 0], and its pool has
    one row; the selector shows that row, a display set of size 1 where
    [min(0, 1) = 0] is claimed. *)
Theorem select_display_zero_count :
  init zero_min_cfg zero_min_table = Ok zero_min_layout
  /\ get_num_display_regions_for_category zero_min_layout 1 = 0
  /\ length (pool zero_min_layout 1) = 1%nat
  /\ nth 1 (display_regions zero_min_layout) [] = [entry "m" "1012" 5 2 0]
  /\ length (nth 1 (display_regions zero_min_layout) [])
     <> Z.to_nat (Z.min (get_num_display_regions_for_category zero_min_layout 1)
                        (Z.of_nat (length (pool zero_min_layout 1)))).
Proof.
  split; [vm_compute; reflexivity|].
  split; [vm_compute; reflexivity|].
  split; [vm_compute; reflexivity|].
  split; [vm_compute; reflexivity|].
  vm_compute. discriminate.
Qed.

(** ** Search injector *)

Lemma search_categories_spec q k col l st :
  text_column (input_table st) k = Ok col ->
  q <> ""%string ->
  snd (search_categories q k l st) = None
  /\ ((fst (search_categories q k l st) = st
       /\ forall j, In j l ->
            matching col q (pool st j) = []
            \/ matching col q (nth j (display_regions st) []) <> [])
      \/ exists l1 i l2,
           l = l1 ++ i :: l2
           /\ (forall j, In j l1 ->
                 matching col q (pool st j) = []
                 \/ matching col q (nth j (display_regions st) []) <> [])
           /\ matching col q (pool st i) <> []
           /\ matching col q (nth i (display_regions st) []) = []
           /\ fst (search_categories q k l st)
              = set_display_regions
                  (<[i := injected col q st i]> (display_regions st)) st).
Proof.
  intros Hcol Hq.
  assert (Hq' : negb (String.eqb q "") = true).
  { apply negb_true_iff, String.eqb_neq, Hq. }
  induction l as [|i l [IH1 IH2]].
  - simpl. split; [reflexivity|]. left. split; [reflexivity|]. intros j [].
  - simpl. rewrite Hcol, Hq'. cbn [andb]. fold (pool st i).
    destruct (length (matching col q (pool st i)) =? 0)%nat eqn:E1; cbn [negb andb].
    + apply Nat.eqb_eq, length_zero_iff_nil in E1.
      split; [exact IH1|].
      destruct IH2 as [[H1 H2]|(l1 & i0 & l2 & -> & H1 & H2 & H3 & H4)].
      * left. split; [exact H1|]. intros j [<-|Hj]; auto.
      * right. exists (i :: l1), i0, l2. split; [reflexivity|].
        split; [|auto]. intros j [<-|Hj]; auto.
    + apply Nat.eqb_neq in E1.
      destruct (length (matching col q (nth i (display_regions st) [])) =? 0)%nat
        eqn:E2.
      * apply Nat.eqb_eq, length_zero_iff_nil in E2. simpl.
        split; [reflexivity|]. right. exists [], i, l.
        split; [reflexivity|]. split; [intros j []|].
        split; [intros H; apply E1; rewrite H; reflexivity|].
        split; [exact E2 | reflexivity].
      * apply Nat.eqb_neq in E2.
        split; [exact IH1|].
        assert (Hi : matching col q (nth i (display_regions st) []) <> []).
        { intros H. apply E2. rewrite H. reflexivity. }
        destruct IH2 as [[H1 H2]|(l1 & i0 & l2 & -> & H1 & H2 & H3 & H4)].
        -- left. split; [exact H1|]. intros j [<-|Hj]; auto.
        -- right. exists (i :: l1), i0, l2. split; [reflexivity|].
           split; [|auto]. intros j [<-|Hj]; auto.
Qed.

Lemma seq_split_lt n l1 i l2 :
  seq 0 n = l1 ++ i :: l2 ->
  (i < n)%nat /\ forall j, (j < i)%nat -> In j l1.
Proof.
  intros H.
  assert (Hn : n = (length l1 + S (length l2))%nat).
  { pose proof (f_equal length H) as L.
    rewrite length_seq, length_app in L. exact L. }
  assert (Hlen : length l1 = i).
  { assert (Hi : nth (length l1) (seq 0 n) 0%nat = i).
    { rewrite H, app_nth2, Nat.sub_diag by lia. reflexivity. }
    rewrite seq_nth in Hi by lia. exact Hi. }
  split; [lia|].
  intros j Hj.
  assert (Hnth : nth j (seq 0 n) 0%nat = j) by (rewrite seq_nth; lia).
  rewrite H, app_nth1 in Hnth by lia.
  rewrite <- Hnth. apply nth_In. lia.
Qed.




(** C8 on a table without the postcode column: construction succeeds, and
    the numeric query 2000 raises [KeyError] in the search. *)
Theorem search_raises_without_postcode_column :
  init demo_cfg no_postcode_table = Ok no_postcode_layout
  /\ snd (add_searched_region "2000" no_postcode_layout) = Some KeyError
  /\ snd (handle_search "2000" no_postcode_layout) = Some KeyError.
Proof.
  split; [vm_compute; reflexivity|].
  split; vm_compute; reflexivity.
Qed.

(** * Further properties of the engine *)

(** ** Sorting as the engine uses it *)

Lemma insert_sorted_perm k a e l : insert_sorted k a e l ≡ₚ e :: l.
Proof.
  induction l as [|x l IH]; simpl; [reflexivity|].
  destruct (_ && _); [reflexivity|].
  rewrite IH. apply Permutation_swap.
Qed.

Lemma fold_insert_sorted_perm k a l acc :
  fold_left (fun acc e => insert_sorted k a e acc) l acc ≡ₚ l ++ acc.
Proof.
  revert acc. induction l as [|e l IH]; intros acc; simpl; [reflexivity|].
  rewrite IH, insert_sorted_perm. symmetry. apply Permutation_middle.
Qed.

Lemma sort_values_perm k a l : sort_values k a l ≡ₚ l.
Proof.
  unfold sort_values. rewrite fold_insert_sorted_perm, app_nil_r. reflexivity.
Qed.

Lemma sort_values_length k a l : length (sort_values k a l) = length l.
Proof. apply Permutation_length, sort_values_perm. Qed.

Lemma sort_values_In k a l e : In e (sort_values k a l) <-> In e l.
Proof.
  split; apply Permutation_in; [|symmetry]; apply sort_values_perm.
Qed.

Lemma key_le_trans a x y z :
  key_le a x y = true -> key_le a y z = true -> key_le a x z = true.
Proof.
  unfold key_le. destruct a; rewrite !Z.leb_le; lia.
Qed.

Lemma key_le_total a x y : key_le a x y = false -> key_le a y x = true.
Proof.
  unfold key_le. destruct a; rewrite Z.leb_le, Z.leb_gt; lia.
Qed.

Lemma insert_sorted_sorted k a e l :
  StronglySorted (ranked k a) l ->
  StronglySorted (ranked k a) (insert_sorted k a e l).
Proof.
  induction 1 as [|x l Hs IH Hall]; simpl.
  - repeat constructor.
  - destruct (key_le a (column k e) (column k x)
              && negb (column k e =? column k x)) eqn:E.
    + apply andb_true_iff in E as [E _].
      constructor; [constructor; assumption|].
      constructor; [exact E|].
      rewrite Forall_forall in *. intros y Hy.
      eapply key_le_trans; [exact E | apply Hall, Hy].
    + constructor; [exact IH|].
      rewrite Forall_forall in *. intros y Hy.
      apply list_elem_of_In in Hy.
      apply (Permutation_in _ (insert_sorted_perm k a e l)) in Hy.
      destruct Hy as [<-|Hy].
      * unfold ranked.
        apply andb_false_iff in E as [E|E].
        -- apply key_le_total, E.
        -- apply negb_false_iff, Z.eqb_eq in E. rewrite E.
           unfold key_le. destruct a; apply Z.leb_refl.
      * apply Hall, list_elem_of_In, Hy.
Qed.

Lemma fold_insert_sorted_sorted k a l acc :
  StronglySorted (ranked k a) acc ->
  StronglySorted (ranked k a)
    (fold_left (fun acc e => insert_sorted k a e acc) l acc).
Proof.
  revert acc. induction l as [|e l IH]; intros acc H; simpl; [exact H|].
  apply IH, insert_sorted_sorted, H.
Qed.

Lemma sort_values_sorted k a l : StronglySorted (ranked k a) (sort_values k a l).
Proof. apply fold_insert_sorted_sorted. constructor. Qed.

Lemma sorted_last_worst k a l w :
  StronglySorted (ranked k a) l -> last l = Some w ->
  forall e, In e l -> ranked k a e w.
Proof.
  intros Hs Hl e He. apply last_Some in Hl as [l' ->].
  apply StronglySorted_app in Hs as (Hcross & _ & _).
  apply in_app_or in He as [He|[<-|[]]].
  - apply Hcross; [apply list_elem_of_In, He | apply list_elem_of_singleton; reflexivity].
  - unfold ranked, key_le. destruct a; apply Z.leb_refl.
Qed.

Lemma tail_1_last {A} (l : list A) :
  tail 1 l = match last l with Some x => [x] | None => [] end.
Proof.
  unfold tail. destruct (last l) as [x|] eqn:E.
  - apply last_Some in E as [l' ->].
    rewrite length_app. simpl.
    replace (length l' + 1 - 1)%nat with (length l') by lia.
    rewrite drop_app_length. reflexivity.
  - apply last_None in E. subst. reflexivity.
Qed.

Lemma head_In {A} n (l : list A) x : In x (head n l) -> In x l.
Proof.
  unfold head. destruct (0 <=? n); intros H;
    apply list_elem_of_In in H; apply list_elem_of_In;
    exact (subseteq_take _ _ _ H).
Qed.

Lemma tail_In {A} n (l : list A) x : In x (tail n l) -> In x l.
Proof.
  unfold tail. intros H. apply list_elem_of_In in H. apply list_elem_of_In.
  exact (subseteq_drop _ _ _ H).
Qed.

(** ** Display selector *)

Lemma select_display_unfold st i :
  select_display st i
  = let n := get_num_display_regions_for_category st i in
    if Z.of_nat (length (sorted_pool st i)) >? n
    then head (-1) (head n (sorted_pool st i)) ++ tail 1 (sorted_pool st i)
    else head n (sorted_pool st i).
Proof. reflexivity. Qed.

(** Every displayed row is a row of the category's own pool. *)
Lemma select_display_In st i e :
  In e (select_display st i) -> In e (pool st i).
Proof.
  rewrite select_display_unfold. cbv zeta.
  destruct (_ >? _); intros H.
  - apply in_app_or in H as [H|H].
    + apply head_In, head_In in H. apply sort_values_In in H. exact H.
    + apply tail_In in H. apply sort_values_In in H. exact H.
  - apply head_In in H. apply sort_values_In in H. exact H.
Qed.

Lemma head_nonneg {A} n (l : list A) : 0 <= n -> head n l = take (Z.to_nat n) l.
Proof. intros H. unfold head. rewrite (proj2 (Z.leb_le 0 n) H). reflexivity. Qed.

Lemma head_minus_one {A} (l : list A) : head (-1) l = take (length l - 1) l.
Proof. reflexivity. Qed.

Lemma select_display_length st i :
  let n := get_num_display_regions_for_category st i in
  let size := length (pool st i) in
  0 <= n ->
  length (select_display st i)
  = if (n =? 0) && (0 <? size)%nat then 1%nat
    else Nat.min (Z.to_nat n) size.
Proof.
  intros n size Hn. rewrite select_display_unfold. cbv zeta. fold n.
  assert (Hlen : length (sorted_pool st i) = size) by apply sort_values_length.
  rewrite Hlen, head_minus_one, !(head_nonneg n) by exact Hn.
  destruct (Z.of_nat size >? n) eqn:E.
  - apply Z.gtb_lt in E.
    rewrite length_app, tail_1_last.
    destruct (last (sorted_pool st i)) as [w|] eqn:El.
    + cbn [length]. rewrite !length_take, Hlen.
      destruct (n =? 0) eqn:E0.
      * apply Z.eqb_eq in E0. rewrite E0 in *.
        assert ((0 <? size)%nat = true) as -> by (apply Nat.ltb_lt; lia).
        simpl. lia.
      * apply Z.eqb_neq in E0. cbn [andb]. lia.
    + apply last_None in El. rewrite El in Hlen. simpl in Hlen. lia.
  - assert (Hge : n >= Z.of_nat size).
    { destruct (Z.gtb_spec (Z.of_nat size) n); [discriminate|lia]. }
    rewrite length_take, Hlen.
    destruct (n =? 0) eqn:E0.
    + apply Z.eqb_eq in E0.
      assert ((0 <? size)%nat = false) as -> by (apply Nat.ltb_ge; lia).
      cbn [andb]. lia.
    + cbn [andb]. lia.
Qed.

Lemma init_sort_criterias c table st :
  init c table = Ok st ->
  sort_criterias st
  = map (fun i => if (i =? 0)%nat then TimeSafeKey else get_incidence_key st i)
        (seq 0 (num_categories st)).
Proof.
  intros H. destruct (init_Ok _ _ _ H) as (st1 & st2 & H1 & H2 & ->).
  apply categorize_entries_Ok in H1 as (E1 & _ & _).
  apply calculate_ratios_Ok in H2 as (E2 & _).
  set (st3 := init_sorting_criteria st2).
  set (st0 := build_plot_data (build_display_regions st3)).
  assert (Hf : frozen st0 = frozen st3).
  { unfold st0. rewrite build_plot_data_frozen.
    apply (build_display_regions_frozen st3). }
  change (sort_criterias (frozen st0)
          = map (fun i => if (i =? 0)%nat then TimeSafeKey
                          else get_incidence_key (frozen st0) i)
                (seq 0 (num_categories (frozen st0)))).
  rewrite Hf. reflexivity.
Qed.

Lemma init_display_nth c table st i :
  init c table = Ok st -> (i < num_categories st)%nat ->
  nth i (display_regions st) [] = select_display st i.
Proof.
  intros H Hi. destruct (init_display _ _ _ H) as [_ ->].
  apply nth_map_seq, Hi.
Qed.

(** X1: in a constructed layout with [min_display_regions >= 1], the
    display set of a category has [min(display_count, |pool|)] rows, hence
    at least [min(min_display_regions, |pool|)] and at most [|pool|]. *)
Theorem select_display_size (c : Cfg.t) (table : Table) (st : Layout) (i : nat) :
  init c table = Ok st ->
  (i < num_categories st)%nat ->
  1 <= min_display_regions st ->
  let n := get_num_display_regions_for_category st i in
  let shown := length (nth i (display_regions st) []) in
  shown = Nat.min (Z.to_nat n) (length (pool st i))
  /\ (Nat.min (Z.to_nat (min_display_regions st)) (length (pool st i)) <= shown)%nat
  /\ (shown <= length (pool st i))%nat.
Proof.
  intros Hinit Hi Hmin n shown. subst shown.
  rewrite (init_display_nth _ _ _ _ Hinit Hi).
  assert (Hn : min_display_regions st <= n) by (unfold n, get_num_display_regions_for_category; lia).
  pose proof (select_display_length st i ltac:(fold n; lia)) as H.
  cbv zeta in H. fold n in H.
  assert (E : (n =? 0) = false) by (apply Z.eqb_neq; lia).
  rewrite E in H. cbn [andb] in H. rewrite H.
  split; [reflexivity|]. split; lia.
Qed.

Lemma select_display_size_witness :
  init demo_cfg demo_table = Ok demo_layout
  /\ length (nth 1 (display_regions demo_layout) [])
     = Nat.min (Z.to_nat (get_num_display_regions_for_category demo_layout 1))
               (length (pool demo_layout 1)).
Proof.
  assert (H : init demo_cfg demo_table = Ok demo_layout)
    by (vm_compute; reflexivity).
  assert (Hi : (1 < num_categories demo_layout)%nat)
    by (vm_compute; repeat constructor).
  assert (Hm : 1 <= min_display_regions demo_layout)
    by (vm_compute; discriminate).
  exact (conj H (proj1 (select_display_size demo_cfg demo_table demo_layout 1
                          H Hi Hm))).
Defined.

(** X2: in a constructed layout, category 0 is ranked by the time-safe
    count, descending, and every other category by its incidence key,
    ascending, and the ranked pool is a sorted permutation of the pool;
    when the pool is larger than a display count of at least 1, the
    display set is the first [display_count - 1] rows of the ranked pool
    followed by its last row, and no row of the pool is ranked after that
    last row. *)
Theorem select_display_shape (c : Cfg.t) (table : Table) (st : Layout) (i : nat) :
  init c table = Ok st ->
  (i < num_categories st)%nat ->
  let n := get_num_display_regions_for_category st i in
  criteria_of st i = (if (i =? 0)%nat then TimeSafeKey else get_incidence_key st i)
  /\ ascending_of st i = negb (i =? 0)%nat
  /\ StronglySorted (ranked (criteria_of st i) (ascending_of st i)) (sorted_pool st i)
  /\ sorted_pool st i ≡ₚ pool st i
  /\ (1 <= n < Z.of_nat (length (pool st i)) ->
      exists worst,
        last (sorted_pool st i) = Some worst
        /\ nth i (display_regions st) []
           = take (Z.to_nat n - 1) (sorted_pool st i) ++ [worst]
        /\ forall e, In e (pool st i) ->
             ranked (criteria_of st i) (ascending_of st i) e worst).
Proof.
  intros Hinit Hi n.
  assert (Hc : criteria_of st i
               = (if (i =? 0)%nat then TimeSafeKey else get_incidence_key st i)).
  { unfold criteria_of. rewrite (init_sort_criterias _ _ _ Hinit).
    apply (nth_map_seq (fun i => if (i =? 0)%nat then TimeSafeKey
                                 else get_incidence_key st i)), Hi. }
  split; [exact Hc|]. split.
  { unfold ascending_of. rewrite Hc. destruct (i =? 0)%nat; [reflexivity|].
    destruct (get_incidence_key_cases st i) as [-> | ->]; reflexivity. }
  split; [apply sort_values_sorted|]. split; [apply sort_values_perm|].
  intros Hn.
  assert (Hlen : length (sorted_pool st i) = length (pool st i))
    by apply sort_values_length.
  destruct (last (sorted_pool st i)) as [w|] eqn:El.
  - exists w. split; [reflexivity|]. split.
    + rewrite (init_display_nth _ _ _ _ Hinit Hi), select_display_unfold.
      cbv zeta. fold n. rewrite Hlen.
      assert (E : (Z.of_nat (length (pool st i)) >? n) = true)
        by (apply Z.gtb_lt; lia).
      rewrite E, head_minus_one, head_nonneg, tail_1_last, El by lia.
      rewrite length_take, Hlen, take_take. f_equal. f_equal. lia.
    + intros e He.
      apply (sorted_last_worst _ _ (sorted_pool st i)); [apply sort_values_sorted|exact El|].
      apply sort_values_In, He.
  - apply last_None in El. rewrite El in Hlen. simpl in Hlen. lia.
Qed.

Lemma select_display_shape_witness :
  init shared_postcode_cfg shared_postcode_table = Ok shared_postcode_layout
  /\ exists worst,
       last (sorted_pool shared_postcode_layout 0) = Some worst
       /\ nth 0 (display_regions shared_postcode_layout) []
          = take (Z.to_nat (get_num_display_regions_for_category
                              shared_postcode_layout 0) - 1)
              (sorted_pool shared_postcode_layout 0) ++ [worst]
       /\ forall e, In e (pool shared_postcode_layout 0) ->
            ranked (criteria_of shared_postcode_layout 0)
              (ascending_of shared_postcode_layout 0) e worst.
Proof.
  assert (H : init shared_postcode_cfg shared_postcode_table
              = Ok shared_postcode_layout)
    by (vm_compute; reflexivity).
  assert (Hi : (0 < num_categories shared_postcode_layout)%nat)
    by (vm_compute; repeat constructor).
  assert (Hn : 1 <= get_num_display_regions_for_category shared_postcode_layout 0
               < Z.of_nat (length (pool shared_postcode_layout 0))).
  { vm_compute. split; [discriminate | reflexivity]. }
  exact (conj H (proj2 (proj2 (proj2 (proj2 (select_display_shape
                                 shared_postcode_cfg shared_postcode_table
                                 shared_postcode_layout 0 H Hi))))
                   Hn)).
Defined.

(** ** Search injector *)

Lemma search_categories_display q k l st :
  display_regions (fst (search_categories q k l st)) = display_regions st
  \/ exists i col,
       In i l
       /\ text_column (input_table st) k = Ok col
       /\ display_regions (fst (search_categories q k l st))
          = <[i := injected col q st i]> (display_regions st).
Proof.
  induction l as [|i l IH]; cbn [search_categories]; [left; reflexivity|].
  destruct (text_column (input_table st) k) as [col|err] eqn:Hcol;
    [|left; reflexivity].
  destruct (_ && _).
  - right. exists i, col. split; [left; reflexivity|]. split; reflexivity.
  - destruct IH as [IH|(i0 & col0 & Hin & Hc & IH)]; [left; exact IH|].
    right. exists i0, col0. split; [right; exact Hin|]. split; assumption.
Qed.

Lemma injected_In col q st i e :
  In e (injected col q st i) ->
  In e (nth i (display_regions st) []) \/ In e (pool st i).
Proof.
  unfold injected. intros H. apply sort_values_In in H.
  apply in_app_or in H as [H|H]; [left; exact H|].
  right. unfold matching in H. apply filter_In in H. tauto.
Qed.

Lemma pool_frozen st st' i : frozen st = frozen st' -> pool st i = pool st' i.
Proof.
  intros H. change (pool (frozen st) i = pool (frozen st') i). rewrite H.
  reflexivity.
Qed.

Lemma handle_display_from_pool ev st :
  (forall i e, In e (nth i (display_regions st) []) -> In e (pool st i)) ->
  forall i e, In e (nth i (display_regions (handle ev st)) []) ->
              In e (pool st i).
Proof.
  intros Inv i e. destruct ev as [|q|]; cbn [handle].
  - destruct (render_expands st) as [H _].
    rewrite (only_y_range_display _ _ H). apply Inv.
  - assert (Hd : display_regions (fst (handle_search q st))
                 = display_regions (fst (add_searched_region q st))).
    { unfold handle_search. destruct (add_searched_region q st) as [s [err|]];
        [reflexivity|apply build_plot_data_display]. }
    rewrite Hd. unfold add_searched_region.
    set (s := set_last_searched q st).
    destruct (search_categories_display q (if isnumeric q then PostcodeKey else RegionKey)
                (seq 0 (num_categories s)) s) as [->|(i0 & col & _ & _ & ->)].
    + apply Inv.
    + rewrite nth_insert. destruct (decide _) as [[-> _]|_]; [|apply Inv].
      intros H. apply injected_In in H as [H|H]; [apply Inv, H | exact H].
  - unfold handle_reset. rewrite build_plot_data_display.
    set (s := set_last_searched "" st).
    destruct (Nat.lt_ge_cases i (length (display_regions (build_display_regions s))))
      as [Hlt|Hge].
    + unfold build_display_regions in *.
      destruct (Nat.le_gt_cases (num_categories s) (length (display_regions s)))
        as [Hle|Hgt].
      * rewrite fold_select_display by exact Hle.
        rewrite fold_select_display, length_app, length_map, length_seq,
          length_drop in Hlt by exact Hle.
        destruct (Nat.lt_ge_cases i (num_categories s)) as [Hi|Hi].
        -- rewrite app_nth1 by (rewrite length_map, length_seq; exact Hi).
           rewrite (nth_map_seq (select_display s)) by exact Hi.
           apply select_display_In.
        -- rewrite app_nth2 by (rewrite length_map, length_seq; exact Hi).
           rewrite length_map, length_seq.
           intros H. apply Inv.
           rewrite nth_lookup, lookup_drop in H.
           replace (num_categories s + (i - num_categories s))%nat with i in H by lia.
           rewrite nth_lookup. exact H.
      * revert e.
        assert (G : forall l s0,
                  (forall j e, In e (nth j (display_regions s0) []) -> In e (pool s0 j)) ->
                  forall j e, In e (nth j (display_regions (fold_left select_step l s0)) []) ->
                              In e (pool s0 j)).
        { clear. induction l as [|k l IHl]; intros s0 Inv0 j e; [apply Inv0|].
          cbn [fold_left]. intros H.
          assert (Hf : frozen (select_step s0 k) = frozen s0) by reflexivity.
          rewrite (pool_frozen s0 (select_step s0 k) j) by (symmetry; exact Hf).
          apply (IHl (select_step s0 k)); [|exact H].
          intros j' e'. unfold select_step at 1. cbn [display_regions set_display_regions].
          rewrite nth_insert. rewrite <- (pool_frozen s0 _ j') by (symmetry; exact Hf).
          destruct (decide _) as [[-> _]|_]; [apply select_display_In | apply Inv0]. }
        apply (G (seq 0 (num_categories s)) s). exact Inv.
    + rewrite nth_overflow by exact Hge. intros [].
Qed.

(** X3: whatever the events of a session, a category only ever displays
    rows of its own pool. *)
Theorem displayed_rows_from_pool (c : Cfg.t) (table : Table) (st0 : Layout)
    (evs : list Event) (i : nat) (e : Entry) :
  init c table = Ok st0 ->
  In e (nth i (display_regions (run evs st0)) []) ->
  In e (pool st0 i) /\ In e (rows table).
Proof.
  intros Hinit.
  assert (Hpool : forall j x, In x (pool st0 j) -> In x (rows table)).
  { intros j x Hx.
    destruct (init_fields _ _ _ Hinit) as (_ & _ & _ & _ & Hp & _).
    destruct (Nat.lt_ge_cases j (num_categories st0)) as [Hj|Hj].
    - rewrite (Hp j Hj) in Hx. apply filter_In in Hx. tauto.
    - destruct (init_Ok _ _ _ Hinit) as (st1 & st2 & H1 & H2 & E).
      assert (Hlen : length (categorized_entries st0) = num_categories st0).
      { apply categorize_entries_Ok in H1 as (E1 & _ & _).
        apply calculate_ratios_Ok in H2 as (E2 & _).
        assert (Hf : frozen st0 = frozen (init_sorting_criteria st2)).
        { rewrite E, build_plot_data_frozen.
          apply (build_display_regions_frozen (init_sorting_criteria st2)). }
        change (length (categorized_entries (frozen st0))
                = num_categories (frozen st0)).
        rewrite Hf, E2, E1. cbn.
        unfold resolve_ties.
        set (f := fun ce k => <[k := _]> ce).
        assert (G : forall l ce, length (fold_left f l ce) = length ce).
        { induction l as [|k l IHl]; intros ce; [reflexivity|].
          cbn [fold_left]. rewrite IHl. unfold f. apply length_insert. }
        rewrite G, length_map, length_seq. reflexivity. }
      unfold pool in Hx. rewrite nth_overflow in Hx by lia. destruct Hx. }
  intros H.
  assert (G : In e (pool st0 i)).
  { revert i e H. induction evs as [|ev evs IH] using rev_ind; intros i e H.
    - cbn in H. rewrite (init_display_nth c table) in H; [apply select_display_In, H|exact Hinit|].
      destruct (Nat.lt_ge_cases i (num_categories st0)) as [Hi|Hi]; [exact Hi|].
      destruct (init_display _ _ _ Hinit) as [Hl _].
      rewrite nth_overflow in H by lia. destruct H.
    - rewrite run_snoc in H.
      destruct (run_frozen evs st0) as (Hf & _ & _).
      rewrite <- (pool_frozen (run evs st0) st0 i Hf).
      apply (handle_display_from_pool ev (run evs st0)); [|exact H].
      intros j x Hx. rewrite (pool_frozen (run evs st0) st0 j Hf).
      apply IH, Hx. }
  split; [exact G | exact (Hpool i e G)].
Qed.

Lemma displayed_rows_from_pool_witness :
  init demo_cfg demo_table = Ok demo_layout
  /\ In (entry "g" "1006" 0 0 9) (pool demo_layout 0).
Proof.
  assert (H : init demo_cfg demo_table = Ok demo_layout)
    by (vm_compute; reflexivity).
  assert (Hin : In (entry "g" "1006" 0 0 9)
                  (nth 0 (display_regions (run [Search "h"; Reset] demo_layout)) [])).
  { vm_compute. left. reflexivity. }
  exact (conj H (proj1 (displayed_rows_from_pool demo_cfg demo_table demo_layout
                          [Search "h"; Reset] 0 (entry "g" "1006" 0 0 9) H Hin))).
Defined.

Lemma search_categories_error q k l st :
  snd (search_categories q k l st)
  = match l, text_column (input_table st) k with
    | _ :: _, Raise e => Some e
    | _, _ => None
    end.
Proof.
  induction l as [|i l IH]; cbn [search_categories]; [reflexivity|].
  destruct (text_column (input_table st) k) as [col|e]; [|reflexivity].
  destruct (_ && _); [reflexivity|].
  rewrite IH. destruct l; reflexivity.
Qed.

(** X4: the search raises exactly when the query is numeric, the table
    has no postcode column and there is a category to scan, and then it
    raises [KeyError]; the handler then leaves the layout as it was but
    for the recorded query: display sets, viewport and plot sources are
    untouched. *)
Theorem search_raises_iff (query : string) (st : Layout) :
  (snd (add_searched_region query st) = Some KeyError <->
   isnumeric query = true
   /\ has_postcode (input_table st) = false
   /\ (0 < num_categories st)%nat)
  /\ (snd (add_searched_region query st) = None
      \/ snd (add_searched_region query st) = Some KeyError)
  /\ (snd (handle_search query st) = Some KeyError ->
      fst (handle_search query st) = set_last_searched query st).
Proof.
  unfold handle_search, add_searched_region.
  set (s := set_last_searched query st).
  pose proof (search_categories_error query
                (if isnumeric query then PostcodeKey else RegionKey)
                (seq 0 (num_categories s)) s) as He.
  change (num_categories s) with (num_categories st) in *.
  change (input_table s) with (input_table st) in *.
  destruct (num_categories st) as [|n] eqn:En.
  - cbn [seq] in *. cbn [search_categories fst snd].
    split; [|split].
    + split; [discriminate | intros (_ & _ & H); lia].
    + left. reflexivity.
    + discriminate.
  - cbn [seq] in *. unfold text_column in He.
    destruct (isnumeric query) eqn:Eq.
    + destruct (has_postcode (input_table st)) eqn:Ep.
      * split; [|split].
        -- rewrite He. split; [discriminate | intros (_ & H & _); discriminate].
        -- left. exact He.
        -- destruct (search_categories _ _ _ s) as [s' [e|]]; cbn in *;
             [discriminate He | discriminate].
      * split; [|split].
        -- rewrite He. split; [intros _; repeat split; lia | reflexivity].
        -- right. exact He.
        -- assert (E : search_categories query PostcodeKey (0%nat :: seq 1 n) s
                       = (s, Some KeyError)).
           { cbn [search_categories text_column].
             change (input_table s) with (input_table st). rewrite Ep.
             reflexivity. }
           rewrite E. reflexivity.
    + split; [|split].
      * rewrite He. split; [discriminate | intros (H & _); discriminate].
      * left. exact He.
      * destruct (search_categories _ _ _ s) as [s' [e|]]; cbn in *;
          [discriminate He | discriminate].
Qed.

Lemma search_raises_iff_witness :
  fst (handle_search "2000" no_postcode_layout)
  = set_last_searched "2000" no_postcode_layout.
Proof.
  assert (H : snd (handle_search "2000" no_postcode_layout) = Some KeyError)
    by (vm_compute; reflexivity).
  exact (proj2 (proj2 (search_raises_iff "2000" no_postcode_layout)) H).
Defined.

Lemma search_categories_noop q k col l st :
  text_column (input_table st) k = Ok col ->
  (forall i, In i l ->
     matching col q (pool st i) = []
     \/ matching col q (nth i (display_regions st) []) <> []) ->
  search_categories q k l st = (st, None).
Proof.
  intros Hcol. induction l as [|i l IH]; intros H; cbn [search_categories];
    [reflexivity|].
  rewrite Hcol. fold (pool st i).
  destruct (H i (or_introl eq_refl)) as [E|E].
  - rewrite E. cbn [length Nat.eqb negb andb]. rewrite andb_false_r. cbn [andb].
    apply IH. intros j Hj. apply H. right. exact Hj.
  - assert (E' : (length (matching col q (nth i (display_regions st) [])) =? 0)%nat
                 = false).
    { apply Nat.eqb_neq. intros L. apply E, length_zero_iff_nil, L. }
    rewrite E', andb_false_r.
    apply IH. intros j Hj. apply H. right. exact Hj.
Qed.

(** X5: a search is a silent no-op on the display sets, and records
    only the query, when the looked-up column exists and every category
    has no matching row in its pool or one already in its display set;
    the empty query is always such a no-op. *)
Theorem search_without_target_is_noop (query : string) (st : Layout) :
  (forall col,
     text_column (input_table st) (search_type_of query) = Ok col ->
     (forall i, (i < num_categories st)%nat ->
        matching col query (pool st i) = []
        \/ matching col query (nth i (display_regions st) []) <> []) ->
     add_searched_region query st = (set_last_searched query st, None)
     /\ display_regions (fst (handle_search query st)) = display_regions st
     /\ snd (handle_search query st) = None)
  /\ add_searched_region "" st = (set_last_searched "" st, None).
Proof.
  split.
  - intros col Hcol H.
    assert (E : add_searched_region query st = (set_last_searched query st, None)).
    { unfold add_searched_region. fold (search_type_of query).
      apply (search_categories_noop query _ col); [exact Hcol|].
      intros i Hi. apply in_seq in Hi. apply H. cbn in Hi. lia. }
    split; [exact E|].
    unfold handle_search. rewrite E. cbn [fst snd].
    split; [rewrite build_plot_data_display; reflexivity | reflexivity].
  - unfold add_searched_region. cbn [isnumeric String.eqb negb andb].
    set (s := set_last_searched "" st).
    generalize (seq 0 (num_categories s)).
    induction l as [|i l IH]; cbn [search_categories]; [reflexivity|].
    cbn [text_column String.eqb negb andb]. exact IH.
Qed.

Lemma search_without_target_is_noop_witness :
  add_searched_region "nowhere" demo_layout
  = (set_last_searched "nowhere" demo_layout, None).
Proof.
  assert (H : forall i, (i < num_categories demo_layout)%nat ->
              matching region "nowhere" (pool demo_layout i) = []
              \/ matching region "nowhere" (nth i (display_regions demo_layout) [])
                 <> []).
  { intros i Hi. left.
    assert (N : num_categories demo_layout = 3%nat) by (vm_compute; reflexivity).
    rewrite N in Hi.
    destruct i as [|[|[|i]]]; [vm_compute; reflexivity ..|lia]. }
  exact (proj1 (proj1 (search_without_target_is_noop "nowhere" demo_layout)
                  region eq_refl H)).
Defined.

(** X6: in any state of a session the injector re-sorts a category in
    the direction the selector ranks it (time-safe descending for
    category 0, incidence ascending otherwise), so the display set a
    search produces is the old display set plus the matching rows of the
    pool, in the selector's ranking. *)
Theorem search_keeps_ranking (c : Cfg.t) (table : Table) (st0 : Layout)
    (evs : list Event) (i : nat) (col : Entry -> string) (query : string) :
  init c table = Ok st0 ->
  (i < num_categories st0)%nat ->
  let st := run evs st0 in
  SortKey_eqb (criteria_of st i) (get_incidence_key st i) = ascending_of st i
  /\ injected col query st i
     ≡ₚ nth i (display_regions st) [] ++ matching col query (pool st i)
  /\ StronglySorted (ranked (criteria_of st i) (ascending_of st i))
       (injected col query st i).
Proof.
  intros Hinit Hi st.
  destruct (run_frozen evs st0) as (Hf & _ & _). fold st in Hf.
  assert (Hc : criteria_of st i
               = (if (i =? 0)%nat then TimeSafeKey else get_incidence_key st i)).
  { change (criteria_of (frozen st) i
            = (if (i =? 0)%nat then TimeSafeKey
               else get_incidence_key (frozen st) i)).
    rewrite Hf.
    change (criteria_of st0 i
            = (if (i =? 0)%nat then TimeSafeKey else get_incidence_key st0 i)).
    unfold criteria_of. rewrite (init_sort_criterias _ _ _ Hinit).
    apply (nth_map_seq (fun i => if (i =? 0)%nat then TimeSafeKey
                                 else get_incidence_key st0 i)), Hi. }
  assert (Hdir : SortKey_eqb (criteria_of st i) (get_incidence_key st i)
                 = ascending_of st i).
  { unfold ascending_of. rewrite Hc.
    destruct (i =? 0)%nat;
      destruct (get_incidence_key_cases st i) as [-> | ->]; reflexivity. }
  split; [exact Hdir|]. split.
  - unfold injected. apply sort_values_perm.
  - unfold injected. fold (criteria_of st i). rewrite Hdir.
    apply sort_values_sorted.
Qed.

Lemma search_keeps_ranking_witness :
  init demo_cfg demo_table = Ok demo_layout
  /\ SortKey_eqb (criteria_of (run [Search "h"] demo_layout) 1)
       (get_incidence_key (run [Search "h"] demo_layout) 1)
     = ascending_of (run [Search "h"] demo_layout) 1.
Proof.
  assert (H : init demo_cfg demo_table = Ok demo_layout)
    by (vm_compute; reflexivity).
  assert (Hi : (1 < num_categories demo_layout)%nat)
    by (vm_compute; repeat constructor).
  exact (conj H (proj1 (search_keeps_ranking demo_cfg demo_table demo_layout
                          [Search "h"] 1 region "h" H Hi))).
Defined.

(** ** Plot-data builder: the highlighted row *)

(** X7: the last loop of the builder moves at most one row: when no row
    carries the query as region name or postcode the map is unchanged and
    nothing is highlighted; otherwise exactly the matching row of highest
    index is taken out of the map and is the one highlighted row. *)
Theorem isolate_searched_split (query : string) (data : list PlotRow) :
  (isolate_searched query data = (data, [])
   /\ forall r, In r data -> is_searched query r = false)
  \/ exists before r after,
       data = before ++ r :: after
       /\ is_searched query r = true
       /\ (forall x, In x after -> is_searched query x = false)
       /\ isolate_searched query data = (before ++ after, [r]).
Proof.
  induction data as [|r0 rest IH].
  - left. split; [reflexivity | intros r []].
  - cbn [isolate_searched].
    destruct IH as [[E Hnone]|(before & r & after & -> & Hr & Hafter & E)].
    + rewrite E. destruct (is_searched query r0) eqn:E0.
      * right. exists [], r0, rest. repeat split; auto.
      * left. split; [reflexivity|]. intros r [<-|Hr]; auto.
    + rewrite E. right. exists (r0 :: before), r, after. repeat split; auto.
Qed.

(** ** Plot-data builder: what is placed *)

Lemma only_y_range_fields st st' :
  only_y_range st st' ->
  input_table st' = input_table st
  /\ ratios st' = ratios st
  /\ display_regions st' = display_regions st
  /\ sort_criterias st' = sort_criterias st.
Proof. intros H. rewrite H. repeat split. Qed.

Lemma place_region_plots pc i k top size pad t b p e :
  has_postcode (input_table (pass_layout p)) = pc ->
  exists r,
    plot_data (place_region i k top size pad t b p e) = plot_data p ++ [r]
    /\ plots pc r e.
Proof.
  intros Hpc. unfold place_region.
  set (line_y := (top - _ - pad)%Q).
  set (ty := match last_text_y p with Some _ => _ | None => _ end).
  eexists. split; [reflexivity|].
  unfold plots. cbn. rewrite Hpc.
  repeat split.
  exists line_y, ty. repeat split.
  subst ty. destruct (last_text_y p) as [l|]; [|apply Qle_refl].
  destruct (Qltb (l - line_y) (min_space_y (pass_layout p))) eqn:E.
  - apply Qltb_lt in E. lra.
  - apply Qle_refl.
Qed.

Lemma fold_place_region_plots pc i k top size pad t b l : forall p es,
  has_postcode (input_table (pass_layout p)) = pc ->
  Forall2 (plots pc) (plot_data p) es ->
  Forall2 (plots pc)
    (plot_data (fold_left (place_region i k top size pad t b) l p)) (es ++ l).
Proof.
  induction l as [|e l IH]; intros p es Hpc H; cbn [fold_left].
  - rewrite app_nil_r. exact H.
  - replace (es ++ e :: l) with ((es ++ [e]) ++ l)
      by (rewrite <- app_assoc; reflexivity).
    apply IH.
    + destruct (place_region_expands i k top size pad t b p e) as [Hy _].
      destruct (only_y_range_fields _ _ Hy) as (-> & _). exact Hpc.
    + destruct (place_region_plots pc i k top size pad t b p e Hpc) as (r & -> & Hr).
      apply Forall2_app; [exact H | constructor; [exact Hr | constructor]].
Qed.

Lemma fold_place_category_plots st l : forall acc es,
  only_y_range st (pass_layout (snd acc)) ->
  Forall2 (plots (has_postcode (input_table st))) (plot_data (snd acc)) es ->
  Forall2 (plots (has_postcode (input_table st)))
    (plot_data (snd (fold_left place_category l acc)))
    (es ++ flat_map
             (fun i =>
                if Qeq_bool (nth i (ratios st) 0%Q) 0 then []
                else nth i (display_regions st) [])
             l).
Proof.
  induction l as [|i l IH]; intros acc es Hy H; cbn [fold_left flat_map].
  - rewrite app_nil_r. exact H.
  - rewrite app_assoc. apply IH.
    + eapply only_y_range_trans; [exact Hy|].
      apply (place_category_expands acc i).
    + destruct acc as [top p]. cbn [snd] in *.
      destruct (only_y_range_fields _ _ Hy) as (Ht & Hr & Hd & _).
      unfold place_category. rewrite Hr, Hd.
      destruct (Qeq_bool (nth i (ratios st) 0%Q) 0); cbn [snd].
      * rewrite app_nil_r. exact H.
      * apply fold_place_region_plots; [rewrite Ht; reflexivity | exact H].
Qed.

(** X8: a pass places one row per displayed entry of every category of
    non-zero ratio, in category and display order, and none for a category
    of ratio zero; each row carries the entry's region name and postcode
    cell, the fixed x points [1, 1.25, 1.25, 1.5], a level line, and a
    label at the line's height or below it. *)
Theorem place_lines_rows (st : Layout) :
  Forall2 (plots (has_postcode (input_table st)))
    (plot_data (place_lines st)) (plotted st).
Proof.
  unfold place_lines, plotted.
  apply (fold_place_category_plots st (seq 0 (length (ratios st)))
           (1%Q, {| last_text_y := None; pass_layout := st; plot_data := [] |})
           []).
  - apply only_y_range_refl.
  - constructor.
Qed.

(** ** Plot-data builder: the viewport holds the labels *)

Lemma place_region_covered i k top size pad t b p e :
  (1 <= snd (y_range (pass_layout p)))%Q ->
  covered p -> covered (place_region i k top size pad t b p e).
Proof.
  intros Htop Hc. unfold place_region.
  set (line_y := (top - _ - pad)%Q).
  set (ty := match last_text_y p with Some _ => _ | None => _ end).
  unfold covered. cbn [pass_layout plot_data].
  rewrite (label_ys_snoc _ _ ty) by reflexivity.
  intros y Hy.
  unfold attempt_adjust_y_range.
  destruct (Qltb ty (fst (y_range (pass_layout p)))) eqn:E.
  - apply Qltb_lt in E. cbn.
    apply in_app_or in Hy as [Hy|[<-|[]]].
    + specialize (Hc y Hy). lra.
    + lra.
  - apply Qltb_ge in E.
    apply in_app_or in Hy as [Hy|[<-|[]]]; [apply Hc, Hy | exact E].
Qed.

Lemma fold_place_region_covered i k top size pad t b l : forall p,
  (1 <= snd (y_range (pass_layout p)))%Q ->
  covered p -> covered (fold_left (place_region i k top size pad t b) l p).
Proof.
  induction l as [|e l IH]; intros p Htop Hc; cbn [fold_left]; [exact Hc|].
  apply IH.
  - destruct (place_region_expands i k top size pad t b p e) as [_ [Hs _]].
    rewrite Hs. exact Htop.
  - apply place_region_covered; assumption.
Qed.

Lemma fold_place_category_covered l : forall acc,
  (1 <= snd (y_range (pass_layout (snd acc))))%Q ->
  covered (snd acc) -> covered (snd (fold_left place_category l acc)).
Proof.
  induction l as [|i l IH]; intros acc Htop Hc; cbn [fold_left]; [exact Hc|].
  apply IH.
  - destruct (place_category_expands acc i) as [_ [Hs _]]. rewrite Hs. exact Htop.
  - destruct acc as [top p]. unfold place_category. cbn [snd] in *.
    destruct (Qeq_bool _ 0); cbn [snd]; [exact Hc|].
    apply fold_place_region_covered; assumption.
Qed.

Lemma adjust_from_last_text_y msx d data :
  Forall2 (fun r' r => text_y r' = text_y r)
    (fst (adjust_from_last msx d data)) data.
Proof.
  induction data as [|r rest IH]; cbn [adjust_from_last]; [constructor|].
  destruct (adjust_from_last msx d rest) as [rest' cb]. cbn [fst] in IH.
  pose proof (adjust_step_text_y msx d r cb) as H.
  destruct (adjust_step msx d r cb) as [r' cb']. cbn [fst] in *.
  constructor; assumption.
Qed.

Lemma label_ys_In data r y :
  In r data -> text_y r = Some y -> In y (label_ys data).
Proof.
  intros Hr Hy. unfold label_ys. apply list_elem_of_In, list_elem_of_omap.
  exists r. split; [apply list_elem_of_In, Hr | exact Hy].
Qed.

Lemma isolate_searched_facts q data :
  (length (fst (isolate_searched q data)) + length (snd (isolate_searched q data))
   = length data)%nat
  /\ (forall r, In r (fst (isolate_searched q data)
                     ++ snd (isolate_searched q data)) -> In r data)
  /\ (forall r, In r (snd (isolate_searched q data)) -> is_searched q r = true)
  /\ (length (snd (isolate_searched q data)) <= 1)%nat
  /\ (snd (isolate_searched q data) = [] <->
      forall r, In r data -> is_searched q r = false).
Proof.
  induction data as [|r0 rest (L & I & S & B & N)].
  - cbn. repeat split; auto; intros; try lia; contradiction.
  - cbn [isolate_searched].
    destruct (isolate_searched q rest) as [rest' found]. cbn [fst snd] in *.
    destruct found as [|f found].
    + cbn [length] in L.
      destruct (is_searched q r0) eqn:E0; cbn [fst snd length].
      * split; [lia|]. split.
        { intros r Hr. apply in_app_or in Hr as [Hr|[<-|[]]].
          - right. apply I. rewrite app_nil_r. exact Hr.
          - left. reflexivity. }
        split; [intros r [<-|[]]; exact E0|]. split; [lia|].
        split; [discriminate|].
        intros H. rewrite (H r0 (or_introl eq_refl)) in E0. discriminate.
      * split; [cbn in L; lia|]. split.
        { intros r Hr. rewrite app_nil_r in Hr. destruct Hr as [<-|Hr].
          - left. reflexivity.
          - right. apply I. rewrite app_nil_r. exact Hr. }
        split; [intros r []|]. split; [lia|].
        split; [|reflexivity].
        intros _ r [<-|Hr]; [exact E0|]. apply (proj1 N eq_refl), Hr.
    + cbn [fst snd length] in *. split; [lia|]. split.
      { intros r Hr. apply in_app_or in Hr as [[<-|Hr]|Hr].
        - left. reflexivity.
        - right. apply I, in_or_app. left. exact Hr.
        - right. apply I, in_or_app. right. exact Hr. }
      split; [exact S|]. split; [exact B|].
      split; [discriminate|].
      intros H. exfalso.
      assert (F : f :: found = []).
      { apply N. intros r Hr. apply H. right. exact Hr. }
      discriminate.
Qed.

(** X9: when the viewport's upper bound is at least 1, after a builder
    pass no label, in the plot source or highlighted, lies below the
    viewport's lower bound. *)
Theorem viewport_holds_labels (st : Layout) (r : PlotRow) (y : Q) :
  (1 <= snd (y_range st))%Q ->
  In r (source (build_plot_data st) ++ searched_source (build_plot_data st)) ->
  text_y r = Some y ->
  (fst (y_range (build_plot_data st)) <= y)%Q.
Proof.
  intros Htop Hr Hy.
  assert (Hc : covered (place_lines st)).
  { unfold place_lines.
    apply (fold_place_category_covered (seq 0 (length (ratios st)))
             (1%Q, {| last_text_y := None; pass_layout := st; plot_data := [] |})).
    - exact Htop.
    - intros z []. }
  unfold build_plot_data in *.
  set (p := place_lines st) in *.
  set (data := adjust_branches (pass_layout p) (plot_data p) Rightward) in *.
  assert (Hin : In r data).
  { apply (proj1 (proj2 (isolate_searched_facts (last_searched st) data))).
    destruct (isolate_searched (last_searched st) data) as [d s]. exact Hr. }
  assert (Hlab : In y (label_ys (plot_data p))).
  { unfold data, adjust_branches in Hin.
    pose proof (adjust_from_last_text_y (min_space_x (pass_layout p)) Rightward
                  (plot_data p)) as F.
    apply list_elem_of_In, list_elem_of_lookup in Hin as [i Hi].
    destruct (Forall2_lookup_l _ _ _ _ _ F Hi) as (r1 & Hr1 & Ht).
    apply (label_ys_In _ r1); [|congruence].
    apply list_elem_of_In, list_elem_of_lookup. eauto. }
  destruct (isolate_searched _ data) as [d s]. cbn.
  apply Hc, Hlab.
Qed.

Lemma viewport_holds_labels_witness :
  (1 <= snd (y_range demo_layout))%Q
  /\ (fst (y_range (build_plot_data demo_layout)) <= demo_row_y)%Q.
Proof.
  assert (H : (1 <= snd (y_range demo_layout))%Q) by (vm_compute; discriminate).
  assert (Hin : In demo_row
                  (source (build_plot_data demo_layout)
                   ++ searched_source (build_plot_data demo_layout))).
  { vm_compute. left. reflexivity. }
  assert (Hy : text_y demo_row = Some demo_row_y) by (vm_compute; reflexivity).
  exact (conj H (viewport_holds_labels demo_layout demo_row demo_row_y H Hin Hy)).
Defined.

(** ** Construction *)

(** X10: construction raises [IndexError] exactly when the bounds or the
    incidence flags are fewer than the labels, raises [ZeroDivisionError]
    exactly when they are not and there is a category but the table is
    empty, and succeeds in every other case. *)
Theorem init_outcome (c : Cfg.t) (table : Table) :
  let n := length (Cfg.labels c) in
  let short :=
    (length (Cfg.calc_with_secondary_incidence c) < n
     \/ length (Cfg.lower_bounds c) < n)%nat in
  (init c table = Raise IndexError <-> short)
  /\ (init c table = Raise ZeroDivisionError <->
      ~ short /\ (0 < n)%nat /\ rows table = [])
  /\ ((exists st, init c table = Ok st) <->
      ~ short /\ (n = 0%nat \/ rows table <> [])).
Proof.
  intros n short. unfold init, bind, categorize_entries.
  cbn [num_categories calc_with_secondary_incidence lower_bounds new_layout].
  fold n. rewrite length_app. cbn [length].
  destruct (length (Cfg.calc_with_secondary_incidence c) <? n)%nat eqn:E1.
  { apply Nat.ltb_lt in E1. cbn [orb].
    assert (Hs : short) by (left; exact E1).
    split; [tauto|]. split.
    - split; [discriminate | tauto].
    - split; [intros [st H]; discriminate | tauto]. }
  apply Nat.ltb_ge in E1. cbn [orb].
  destruct (length (Cfg.lower_bounds c) + 1 <? S n)%nat eqn:E2.
  { apply Nat.ltb_lt in E2.
    assert (Hs : short) by (right; lia).
    split; [tauto|]. split.
    - split; [discriminate | tauto].
    - split; [intros [st H]; discriminate | tauto]. }
  apply Nat.ltb_ge in E2.
  assert (Hs : ~ short) by (unfold short; lia).
  unfold calculate_ratios.
  cbn [num_categories input_table set_categorized_entries new_layout]. fold n.
  destruct (0 <? n)%nat eqn:E3; cbn [andb].
  - apply Nat.ltb_lt in E3.
    destruct (length (rows table) =? 0)%nat eqn:E4.
    + apply Nat.eqb_eq, length_zero_iff_nil in E4.
      split; [split; [discriminate | tauto]|]. split.
      * split; [tauto | reflexivity].
      * split; [intros [st H]; discriminate|].
        intros [_ [H|H]]; [lia | contradiction].
    + apply Nat.eqb_neq in E4.
      assert (Hr : rows table <> []).
      { intros H. apply E4. rewrite H. reflexivity. }
      split; [split; [discriminate | tauto]|]. split.
      * split; [discriminate | tauto].
      * split; [tauto | intros _; eexists; reflexivity].
  - apply Nat.ltb_ge in E3.
    split; [split; [discriminate | tauto]|]. split.
    + split; [discriminate | intros (_ & H & _); lia].
    + split; [intros _; split; [exact Hs | left; lia] | intros _; eexists; reflexivity].
Qed.

Lemma init_outcome_witness :
  init demo_cfg {| has_postcode := true; rows := [] |} = Raise ZeroDivisionError.
Proof.
  apply (proj2 (proj1 (proj2 (init_outcome demo_cfg
                                {| has_postcode := true; rows := [] |})))).
  split; [|split].
  - cbn. lia.
  - cbn. lia.
  - reflexivity.
Defined.

(** ** Proportion calculator *)

Lemma filter_length_bound {A} (f : A -> bool) l :
  (length (List.filter f l) <= length l)%nat.
Proof.
  induction l as [|x l IH]; cbn [List.filter length]; [lia|].
  destruct (f x); cbn [length]; lia.
Qed.

(** X11: in a constructed layout there is one ratio per category; it is
    the pool's share of the table's rows, lies between 0 and 1, and the
    test [box_size == 0] the builder and the legend skip a category on
    holds exactly when the category's pool is empty. *)
Theorem ratios_range (c : Cfg.t) (table : Table) (st : Layout) (i : nat) :
  init c table = Ok st ->
  (i < num_categories st)%nat ->
  let r := nth i (ratios st) 0%Q in
  length (ratios st) = num_categories st
  /\ (r == inject_Z (Z.of_nat (length (pool st i)))
           / inject_Z (Z.of_nat (length (rows table))))%Q
  /\ (0 <= r <= 1)%Q
  /\ (Qeq_bool r 0 = true <-> pool st i = []).
Proof.
  intros Hinit Hi r.
  destruct (init_fields _ _ _ Hinit) as (_ & _ & _ & _ & Hpool & Hr & Hne).
  assert (Hlen : length (ratios st) = num_categories st).
  { rewrite Hr, length_map, length_seq. reflexivity. }
  assert (Er : r = (inject_Z (Z.of_nat (length (pool st i)))
                    / inject_Z (Z.of_nat (length (rows table))))%Q).
  { unfold r. rewrite Hr.
    apply (nth_map_seq (fun i => (inject_Z (Z.of_nat (length (pool st i)))
                                  / inject_Z (Z.of_nat (length (rows table))))%Q)),
      Hi. }
  assert (Hrows : (0 < length (rows table))%nat) by lia.
  assert (Hle : (length (pool st i) <= length (rows table))%nat).
  { rewrite (Hpool i Hi). apply filter_length_bound. }
  assert (Hpos : (0 < inject_Z (Z.of_nat (length (rows table))))%Q).
  { change 0%Q with (inject_Z 0). rewrite <- Zlt_Qlt. lia. }
  assert (Hnum : (0 <= inject_Z (Z.of_nat (length (pool st i))))%Q).
  { change 0%Q with (inject_Z 0). rewrite <- Zle_Qle. lia. }
  split; [exact Hlen|]. split; [rewrite Er; reflexivity|]. split.
  - rewrite Er. split.
    + apply Qle_shift_div_l; [exact Hpos|]. lra.
    + apply Qle_shift_div_r; [exact Hpos|].
      rewrite Qmult_1_l, <- Zle_Qle. lia.
  - rewrite Qeq_bool_iff, Er. split.
    + intros H.
      assert (H0 : (inject_Z (Z.of_nat (length (pool st i))) == 0)%Q).
      { rewrite <- (Qmult_div_r (inject_Z (Z.of_nat (length (pool st i))))
                     (inject_Z (Z.of_nat (length (rows table))))) by lra.
        rewrite H. ring. }
      change 0%Q with (inject_Z 0) in H0. rewrite inject_Z_injective in H0.
      apply length_zero_iff_nil. lia.
    + intros ->. cbn [length Z.of_nat]. unfold Qdiv. ring.
Qed.

Lemma ratios_range_witness :
  init demo_cfg demo_table = Ok demo_layout
  /\ (0 <= nth 2 (ratios demo_layout) 0 <= 1)%Q.
Proof.
  assert (H : init demo_cfg demo_table = Ok demo_layout)
    by (vm_compute; reflexivity).
  assert (Hi : (2 < num_categories demo_layout)%nat)
    by (vm_compute; repeat constructor).
  exact (conj H (proj1 (proj2 (proj2 (ratios_range demo_cfg demo_table
                                        demo_layout 2 H Hi))))).
Defined.

(** ** Categorizer, for every configuration *)

(** X12: whatever the bounds and the incidence flags, after the tie-break
    pass a pool holds only rows of the table that satisfy its category's
    bound test, two neighbouring pools share no row, and a row that
    satisfies the bound test of some category is in the pool of that
    category or of one before it: the tie-break drops no row. *)
Theorem categorize_entries_sound (c : Cfg.t) (table : Table) (st : Layout) :
  init c table = Ok st ->
  (forall i e, (i < num_categories st)%nat -> In e (pool st i) ->
     In e (rows table) /\ in_category st i e = true)
  /\ (forall i e, (S i < num_categories st)%nat ->
        In e (pool st i) -> In e (pool st (S i)) -> False)
  /\ (forall i e, (i < num_categories st)%nat -> In e (rows table) ->
        in_category st i e = true ->
        exists j, (j <= i)%nat /\ In e (pool st j)).
Proof.
  intros Hinit.
  destruct (init_fields _ _ _ Hinit) as (_ & _ & _ & _ & Hpool & _).
  split; [|split].
  - intros i e Hi He. rewrite (Hpool i Hi) in He.
    apply filter_In in He as [He Ha]. split; [exact He|].
    unfold assigned in Ha. apply andb_true_iff in Ha. tauto.
  - intros i e Hi H1 H2.
    rewrite (Hpool i) in H1 by lia. rewrite (Hpool (S i) Hi) in H2.
    apply filter_In in H1 as [_ H1]. apply filter_In in H2 as [_ H2].
    unfold assigned in H1, H2.
    apply andb_true_iff in H1 as [H1 _]. apply andb_true_iff in H2 as [_ H2].
    rewrite H1 in H2. discriminate.
  - intros i e Hi He Hc.
    destruct (first_category st i e Hc) as (j & Hj & Ha).
    exists j. split; [exact Hj|].
    rewrite (Hpool j) by lia. apply filter_In. split; assumption.
Qed.

Lemma categorize_entries_sound_witness :
  init mixed_cfg mixed_table = Ok mixed_layout
  /\ in_category mixed_layout 2 (entry "a" "1000" 5 25 3) = true.
Proof.
  assert (H : init mixed_cfg mixed_table = Ok mixed_layout)
    by (vm_compute; reflexivity).
  assert (Hi : (2 < num_categories mixed_layout)%nat)
    by (vm_compute; repeat constructor).
  assert (He : In (entry "a" "1000" 5 25 3) (pool mixed_layout 2)).
  { vm_compute. left. reflexivity. }
  exact (conj H (proj2 (proj1 (categorize_entries_sound mixed_cfg mixed_table
                                 mixed_layout H)
                          2%nat (entry "a" "1000" 5 25 3) Hi He))).
Defined.

(** ** Branch resolver: what it leaves alone *)

Lemma shift_fields d a r :
  line_y_points (shift d a r) = line_y_points r
  /\ text_y (shift d a r) = text_y r
  /\ region_name (shift d a r) = region_name r
  /\ postcode_cell (shift d a r) = postcode_cell r
  /\ category (shift d a r) = category r.
Proof. repeat split. Qed.

Lemma resolved_fields msx d k r :
  line_y_points (resolved msx d k r) = line_y_points r
  /\ text_y (resolved msx d k r) = text_y r
  /\ region_name (resolved msx d k r) = region_name r
  /\ postcode_cell (resolved msx d k r) = postcode_cell r
  /\ category (resolved msx d k r) = category r.
Proof.
  unfold resolved. destruct (branch_flag r) as [b|]; [|repeat split].
  destruct (b || negb (k =? 0)); [apply shift_fields | repeat split].
Qed.

Lemma adjust_from_last_length msx d data :
  length (fst (adjust_from_last msx d data)) = length data.
Proof.
  induction data as [|r rest IH]; [reflexivity|].
  cbn [adjust_from_last]. destruct (adjust_from_last msx d rest) as [rest' cb].
  destruct (adjust_step msx d r cb) as [r' cb']. cbn [fst length] in *.
  rewrite IH. reflexivity.
Qed.

Lemma adjust_branches_lookup st data d i r' :
  adjust_branches st data d !! i = Some r' ->
  exists r, data !! i = Some r
            /\ r' = resolved (min_space_x st) d (run_below (drop (S i) data)) r.
Proof.
  intros H. unfold adjust_branches in H.
  destruct (data !! i) as [r|] eqn:E.
  - exists r. split; [reflexivity|].
    rewrite (proj2 (adjust_from_last_spec (min_space_x st) d data) i r E) in H.
    congruence.
  - apply lookup_ge_None in E.
    assert (L : (i < length (fst (adjust_from_last (min_space_x st) d data)))%nat).
    { apply lookup_lt_is_Some. eauto. }
    rewrite adjust_from_last_length in L. lia.
Qed.

(** X13: for [min_space_x >= 0] the branch resolver changes nothing of a
    row but its x points and the x of its label: heights, label height,
    region name and postcode stay; a polyline whose x points run left to
    right still does afterwards; and the end at the box stays where it
    was, the first point in rightward mode and the last in leftward mode. *)
Theorem adjust_branches_geometry (st : Layout) (data : list PlotRow)
    (d : Direction) (i : nat) (r' : PlotRow) :
  (0 <= min_space_x st)%Q ->
  adjust_branches st data d !! i = Some r' ->
  exists r,
    data !! i = Some r
    /\ line_y_points r' = line_y_points r
    /\ text_y r' = text_y r
    /\ region_name r' = region_name r
    /\ postcode_cell r' = postcode_cell r
    /\ match line_x_points r, line_x_points r' with
       | Some xs, Some xs' =>
           (ordered xs -> ordered xs')
           /\ match d with
              | Rightward => p0 xs' = p0 xs
              | Leftward => p3 xs' = p3 xs
              end
       | None, None => True
       | _, _ => False
       end.
Proof.
  intros Hm H.
  destruct (adjust_branches_lookup _ _ _ _ _ H) as (r & Hr & ->).
  exists r. split; [exact Hr|].
  destruct (resolved_fields (min_space_x st) d (run_below (drop (S i) data)) r)
    as (F1 & F2 & F3 & F4 & _).
  repeat (split; [assumption|]).
  pose proof (run_below_nonneg (drop (S i) data)) as Hk.
  set (k := run_below (drop (S i) data)) in *.
  assert (Hq : (0 <= min_space_x st * inject_Z k)%Q).
  { apply Qmult_le_0_compat; [exact Hm|].
    change 0%Q with (inject_Z 0). rewrite <- Zle_Qle. exact Hk. }
  unfold resolved. destruct (branch_flag r) as [b|].
  - destruct (b || negb (k =? 0)).
    + unfold shift. cbn [line_x_points].
      destruct (line_x_points r) as [xs|]; cbn [option_map]; [|exact I].
      unfold ordered.
      destruct d; cbn [signed p0 p1 p2 p3]; (split; [|reflexivity]);
        intros (H0 & H1 & H2); repeat split; lra.
    + destruct (line_x_points r) as [xs|]; [|exact I].
      split; [tauto | destruct d; reflexivity].
  - destruct (line_x_points r) as [xs|]; [|exact I].
    split; [tauto | destruct d; reflexivity].
Qed.

Lemma adjust_branches_geometry_witness :
  exists r,
    sample_rows !! 1%nat = Some r
    /\ line_y_points (resolved (min_space_x (new_layout demo_cfg demo_table))
                        Rightward (run_below (drop 2 sample_rows))
                        (line_row (9 # 10) (8 # 10)))
       = line_y_points r.
Proof.
  assert (Hm : (0 <= min_space_x (new_layout demo_cfg demo_table))%Q)
    by discriminate.
  assert (H : adjust_branches (new_layout demo_cfg demo_table) sample_rows
                Rightward !! 1%nat
              = Some (resolved (min_space_x (new_layout demo_cfg demo_table))
                        Rightward (run_below (drop 2 sample_rows))
                        (line_row (9 # 10) (8 # 10)))).
  { apply (proj2 (adjust_from_last_spec _ Rightward sample_rows) 1%nat).
    reflexivity. }
  destruct (adjust_branches_geometry (new_layout demo_cfg demo_table) sample_rows
              Rightward 1 _ Hm H) as (r & Hr & Hy & _).
  exists r. split; [exact Hr | exact Hy].
Defined.

(** ** Plot-data builder: the highlighted row of a pass *)

Lemma plots_searched pc q r e :
  plots pc r e -> is_searched q r = entry_searched pc q e.
Proof.
  intros (Hn & Hp & _). unfold is_searched, entry_searched.
  rewrite Hn, Hp. destruct pc; [reflexivity|].
  cbn [andb]. reflexivity.
Qed.

Lemma adjust_branches_searched st data d q :
  Forall2 (fun r' r => is_searched q r' = is_searched q r)
    (adjust_branches st data d) data.
Proof.
  apply Forall2_same_length_lookup. split.
  - unfold adjust_branches. apply adjust_from_last_length.
  - intros i r' r H' H.
    destruct (adjust_branches_lookup _ _ _ _ _ H') as (r0 & Hr0 & ->).
    assert (r0 = r) as -> by congruence.
    destruct (resolved_fields (min_space_x st) d (run_below (drop (S i) data)) r)
      as (_ & _ & F3 & F4 & _).
    unfold is_searched. rewrite F3, F4. reflexivity.
Qed.

Lemma placed_searched st q :
  Forall2 (fun r e => is_searched q r
                      = entry_searched (has_postcode (input_table st)) q e)
    (adjust_branches (pass_layout (place_lines st)) (plot_data (place_lines st))
       Rightward)
    (plotted st).
Proof.
  set (p := place_lines st).
  assert (Hrows : Forall2 (plots (has_postcode (input_table st)))
                    (plot_data p) (plotted st)).
  { unfold p, place_lines, plotted.
    apply (fold_place_category_plots st (seq 0 (length (ratios st)))
             (1%Q, {| last_text_y := None; pass_layout := st; plot_data := [] |})
             []); [apply only_y_range_refl | constructor]. }
  pose proof (adjust_branches_searched (pass_layout p) (plot_data p) Rightward q)
    as A.
  apply Forall2_same_length_lookup. split.
  - rewrite (Forall2_length _ _ _ A). apply (Forall2_length _ _ _ Hrows).
  - intros i r e Hr He.
    destruct (Forall2_lookup_l _ _ _ _ _ A Hr) as (r1 & Hr1 & E1).
    destruct (Forall2_lookup_l _ _ _ _ _ Hrows Hr1) as (e1 & He1 & E2).
    assert (e1 = e) as -> by congruence.
    rewrite E1. apply plots_searched, E2.
Qed.

(** X14: a pass highlights at most one row, and only a row that carries
    the recorded query as region name or postcode; nothing is highlighted
    exactly when no plotted entry has the query as its region name or (in
    a table with postcodes) its postcode; and the plot source and the
    highlight together hold one row per plotted entry. *)
Theorem build_plot_data_highlight (st : Layout) :
  let st' := build_plot_data st in
  let q := last_searched st in
  (length (source st') + length (searched_source st') = length (plotted st))%nat
  /\ (length (searched_source st') <= 1)%nat
  /\ (forall r, In r (searched_source st') -> is_searched q r = true)
  /\ (searched_source st' = [] <->
      forall e, In e (plotted st) ->
                entry_searched (has_postcode (input_table st)) q e = false).
Proof.
  intros st' q. subst st'. unfold build_plot_data.
  set (p := place_lines st).
  set (data := adjust_branches (pass_layout p) (plot_data p) Rightward).
  assert (Hdata : Forall2 (fun r e => is_searched q r
                                      = entry_searched (has_postcode (input_table st)) q e)
                    data (plotted st)) by apply placed_searched.
  destruct (isolate_searched_facts q data) as (L & _ & S & B & N).
  fold q. destruct (isolate_searched q data) as [d s]. cbn [fst snd] in *.
  cbn [source searched_source set_sources].
  split; [rewrite L; apply (Forall2_length _ _ _ Hdata)|].
  split; [exact B|]. split; [exact S|].
  rewrite N. split.
  - intros H e He. apply list_elem_of_In, list_elem_of_lookup in He as [i Hi].
    destruct (Forall2_lookup_r _ _ _ _ _ Hdata Hi) as (r & Hr & E).
    rewrite <- E. apply H, list_elem_of_In, list_elem_of_lookup. eauto.
  - intros H r Hr. apply list_elem_of_In, list_elem_of_lookup in Hr as [i Hi].
    destruct (Forall2_lookup_l _ _ _ _ _ Hdata Hi) as (e & He & E).
    rewrite E. apply H, list_elem_of_In, list_elem_of_lookup. eauto.
Qed.

Lemma build_plot_data_highlight_witness :
  is_searched (last_searched searched_demo) highlight_row = true.
Proof.
  assert (Hin : In highlight_row (searched_source (build_plot_data searched_demo))).
  { vm_compute. left. reflexivity. }
  exact (proj1 (proj2 (proj2 (build_plot_data_highlight searched_demo)))
           highlight_row Hin).
Defined.

(** ** Legend boxes *)

Lemma place_box_row st acc i :
  only_y_range st (pass_layout (snd acc)) ->
  exists r, plot_data (snd (place_box acc i)) = plot_data (snd acc) ++ [r]
            /\ boxed st r i.
Proof.
  intros Hy. destruct acc as [top p]. cbn [snd] in *.
  destruct (only_y_range_fields _ _ Hy) as (_ & Hr & _).
  pose proof (only_y_range_min_space_y _ _ Hy) as Hm.
  unfold place_box, boxed. cbv zeta. rewrite Hr, Hm.
  destruct (Qeq_bool (nth i (ratios st) 0%Q) 0); cbn [snd plot_data].
  - eexists. split; reflexivity.
  - destruct (Qle_bool (min_space_y st * (5 # 2)) (nth i (ratios st) 0%Q));
      cbn [snd plot_data].
    + eexists. split; [reflexivity|]. cbn. repeat split. eexists. reflexivity.
    + eexists. split; [reflexivity|]. cbn. repeat split; eexists; reflexivity.
Qed.

Lemma fold_place_box_rows st l : forall acc,
  only_y_range st (pass_layout (snd acc)) ->
  exists rows,
    plot_data (snd (fold_left place_box l acc)) = plot_data (snd acc) ++ rows
    /\ Forall2 (boxed st) rows l.
Proof.
  induction l as [|i l IH]; intros acc Hy; cbn [fold_left].
  - exists []. split; [rewrite app_nil_r; reflexivity | constructor].
  - destruct (place_box_row st acc i Hy) as (r & Er & Hr).
    destruct (IH (place_box acc i)) as (rows & Erows & Hrows).
    { eapply only_y_range_trans; [exact Hy|].
      apply (place_box_expands acc i). }
    exists (r :: rows). split.
    + rewrite Erows, Er, <- app_assoc. reflexivity.
    + constructor; assumption.
Qed.

(** X15: the legend data has one row per category, in category order: a
    placeholder without line or text for a category of ratio zero; for a
    category at least [2.5 * min_space_y] high a label at [x = 0] inside
    the box and no line; for a smaller one a branch whose end stays at the
    box edge [x = -1] and whose label lies at [x = -1.5] or, for
    [min_space_x >= 0], further left.  Drawing the legend changes nothing
    of the layout but the viewport. *)
Theorem draw_phase_boxes_rows (st : Layout) (i : nat) :
  (0 <= min_space_x st)%Q ->
  (i < num_categories st)%nat ->
  let size := nth i (ratios st) 0%Q in
  only_y_range st (fst (draw_phase_boxes st))
  /\ length (snd (draw_phase_boxes st)) = num_categories st
  /\ exists r,
       snd (draw_phase_boxes st) !! i = Some r
       /\ if Qeq_bool size 0 then r = dummy_row
          else
            category r = Some i
            /\ if Qle_bool (min_space_y st * (5 # 2)) size
               then line_x_points r = None /\ text_x r = Some 0%Q
               else (exists xs, line_x_points r = Some xs /\ p3 xs = (- (1))%Q)
                    /\ exists x, text_x r = Some x /\ (x <= - (3 # 2))%Q.
Proof.
  intros Hm Hi size.
  destruct (render_expands st) as [Hy _]. unfold render in Hy.
  split; [exact Hy|].
  unfold draw_phase_boxes in *. cbn [fst snd] in *.
  set (acc0 := (1%Q, {| last_text_y := Some (inject_Z 99999); pass_layout := st;
                        plot_data := [] |})) in *.
  destruct (fold_place_box_rows st (seq 0 (num_categories st)) acc0)
    as (rows & Erows & Hrows); [apply only_y_range_refl|].
  cbn [snd plot_data acc0 app] in Erows.
  set (p := snd (fold_left place_box (seq 0 (num_categories st)) acc0)) in *.
  assert (Hlen : length rows = num_categories st).
  { rewrite (Forall2_length _ _ _ Hrows), length_seq. reflexivity. }
  split.
  { unfold adjust_branches. rewrite adjust_from_last_length, Erows. exact Hlen. }
  destruct (lookup_lt_is_Some_2 rows i) as [r0 Hr0]; [lia|].
  assert (Hb : boxed st r0 i).
  { destruct (Forall2_lookup_l _ _ _ _ _ Hrows Hr0) as (j & Hj & Hb).
    rewrite lookup_seq_lt in Hj by exact Hi. cbn in Hj.
    assert (j = i) as -> by congruence. exact Hb. }
  assert (Ha : adjust_branches (pass_layout p) (plot_data p) Leftward !! i
               = Some (resolved (min_space_x (pass_layout p)) Leftward
                         (run_below (drop (S i) (plot_data p))) r0)).
  { unfold adjust_branches.
    apply (proj2 (adjust_from_last_spec _ Leftward (plot_data p))).
    rewrite Erows. exact Hr0. }
  eexists. split; [exact Ha|].
  assert (Hmx : min_space_x (pass_layout p) = min_space_x st).
  { rewrite Hy. reflexivity. }
  rewrite Hmx.
  pose proof (run_below_nonneg (drop (S i) (plot_data p))) as Hk.
  set (k := run_below (drop (S i) (plot_data p))) in *.
  assert (Hq : (0 <= min_space_x st * inject_Z k)%Q).
  { apply Qmult_le_0_compat; [exact Hm|].
    change 0%Q with (inject_Z 0). rewrite <- Zle_Qle. exact Hk. }
  unfold boxed in Hb. cbv zeta in Hb. fold size in Hb.
  destruct (Qeq_bool size 0).
  - rewrite Hb. reflexivity.
  - destruct Hb as (Hc & _ & Hb).
    destruct (resolved_fields (min_space_x st) Leftward k r0)
      as (_ & _ & _ & _ & F5).
    split; [rewrite F5; exact Hc|].
    destruct (Qle_bool (min_space_y st * (5 # 2)) size).
    + destruct Hb as (Hx & Hyy & Ht).
      unfold resolved, branch_flag. rewrite Hx. split; assumption.
    + destruct Hb as (Hx & [ys Hyy] & Ht).
      unfold resolved, branch_flag. rewrite Hx, Hyy.
      destruct (is_branched ys || negb (k =? 0)).
      * unfold shift. rewrite Hx, Ht. cbn [line_x_points text_x option_map signed].
        split.
        -- eexists. split; reflexivity.
        -- eexists. split; [reflexivity|]. lra.
      * rewrite Hx, Ht. split.
        -- eexists. split; reflexivity.
        -- eexists. split; [reflexivity|]. apply Qle_refl.
Qed.

Lemma draw_phase_boxes_rows_witness :
  (0 <= min_space_x demo_layout)%Q
  /\ length (snd (draw_phase_boxes demo_layout)) = num_categories demo_layout.
Proof.
  assert (Hm : (0 <= min_space_x demo_layout)%Q) by (vm_compute; discriminate).
  assert (Hi : (0 < num_categories demo_layout)%nat)
    by (vm_compute; repeat constructor).
  exact (conj Hm (proj1 (proj2 (draw_phase_boxes_rows demo_layout 0 Hm Hi)))).
Defined.

(** ** Plot-data builder: lines stay in their band *)

Lemma fold_min_le l : forall a, fold_left Z.min l a <= a
  /\ forall x, In x l -> fold_left Z.min l a <= x.
Proof.
  induction l as [|y l IH]; intros a; simpl.
  - split; [lia | tauto].
  - destruct (IH (Z.min a y)) as [H1 H2]. split; [lia|].
    intros x [<-|Hx]; [lia | auto].
Qed.

Lemma col_min_le l x : In x l -> col_min l <= x.
Proof.
  destruct l as [|a l]; [intros []|].
  simpl. destruct (fold_min_le l a) as [H1 H2].
  intros [<-|Hx]; auto.
Qed.

Lemma relative_height_range (datum bot top : Z) :
  bot <= datum <= top ->
  let rel := if negb (top =? bot)
             then (inject_Z (datum - bot) / inject_Z (top - bot))%Q
             else (1 # 2)%Q in
  (0 <= rel <= 1)%Q.
Proof.
  intros H. cbv zeta. destruct (top =? bot) eqn:E; cbn [negb].
  - split; discriminate.
  - apply Z.eqb_neq in E.
    assert (Hpos : (0 < inject_Z (top - bot))%Q).
    { change 0%Q with (inject_Z 0). rewrite <- Zlt_Qlt. lia. }
    split.
    + apply Qle_shift_div_l; [exact Hpos|]. rewrite Qmult_0_l.
      change 0%Q with (inject_Z 0). rewrite <- Zle_Qle. lia.
    + apply Qle_shift_div_r; [exact Hpos|]. rewrite Qmult_1_l, <- Zle_Qle. lia.
Qed.

Lemma place_region_in_band i k top size t b p e :
  (0 <= size)%Q -> b <= column k e <= t ->
  exists r,
    plot_data (place_region i k top size (size * (1 # 10)) t b p e)
    = plot_data p ++ [r]
    /\ category r = Some i
    /\ exists ys, line_y_points r = Some ys /\ p0 ys = p1 ys
         /\ (top - (9 # 10) * size <= p0 ys)%Q
         /\ (p0 ys <= top - (1 # 10) * size)%Q.
Proof.
  intros Hs Hd. unfold place_region.
  pose proof (relative_height_range (column k e) b t Hd) as Hrel.
  cbv zeta in Hrel.
  set (rel := if negb (t =? b) then _ else _) in *.
  eexists. split; [reflexivity|]. cbn [category line_y_points].
  split; [reflexivity|]. eexists. split; [reflexivity|].
  cbn [p0 p1]. split; [reflexivity|]. nra.
Qed.

Lemma fold_place_region_in_band (P : PlotRow -> Prop) i k top size t b curr :
  (0 <= size)%Q ->
  (forall r, category r = Some i ->
     (exists ys, line_y_points r = Some ys /\ p0 ys = p1 ys
        /\ (top - (9 # 10) * size <= p0 ys)%Q
        /\ (p0 ys <= top - (1 # 10) * size)%Q) -> P r) ->
  forall l p,
    (forall e, In e l -> In e curr) ->
    t = col_max (map (column k) curr) -> b = col_min (map (column k) curr) ->
    Forall P (plot_data p) ->
    Forall P (plot_data
                (fold_left (place_region i k top size (size * (1 # 10)) t b) l p)).
Proof.
  intros Hs HP. induction l as [|e l IH]; intros p Hsub Ht Hb H; cbn [fold_left];
    [exact H|].
  apply IH; [intros x Hx; apply Hsub; right; exact Hx | exact Ht | exact Hb |].
  assert (Hd : b <= column k e <= t).
  { assert (Hin : In (column k e) (map (column k) curr)).
    { apply in_map, Hsub. left. reflexivity. }
    rewrite Ht, Hb. split; [apply col_min_le | apply col_max_ge]; exact Hin. }
  destruct (place_region_in_band i k top size t b p e Hs Hd) as (r & -> & Hc & Hr).
  apply Forall_app. split; [exact H|]. constructor; [|constructor].
  apply HP; assumption.
Qed.

Lemma band_top_S st i :
  band_top st (S i)
  = if Qeq_bool (nth i (ratios st) 0%Q) 0 then band_top st i
    else (band_top st i - nth i (ratios st) 0)%Q.
Proof.
  unfold band_top. rewrite seq_S, fold_left_app. reflexivity.
Qed.

Lemma fold_place_category_in_band st :
  (forall i, (0 <= nth i (ratios st) 0)%Q) ->
  forall m,
    let acc := fold_left place_category (seq 0 m)
                 (1%Q, {| last_text_y := None; pass_layout := st; plot_data := [] |}) in
    fst acc = band_top st m
    /\ only_y_range st (pass_layout (snd acc))
    /\ Forall (in_band st) (plot_data (snd acc)).
Proof.
  intros Hpos. induction m as [|m (Htop & Hy & Hall)]; cbv zeta.
  - cbn. split; [reflexivity|]. split; [apply only_y_range_refl | constructor].
  - rewrite seq_S, fold_left_app. cbn [fold_left Nat.add].
    set (acc := fold_left place_category (seq 0 m) _) in *.
    destruct acc as [top p] eqn:Eacc. cbn [fst snd] in *.
    destruct (only_y_range_fields _ _ Hy) as (_ & Hr & Hd & Hs).
    rewrite band_top_S.
    unfold place_category. rewrite Hr, Hd, Hs.
    destruct (Qeq_bool (nth m (ratios st) 0%Q) 0) eqn:E; cbn [fst snd].
    + split; [exact Htop|]. split; assumption.
    + split; [rewrite Htop; reflexivity|]. split.
      * eapply only_y_range_trans; [exact Hy|].
        apply fold_place_region_expands.
      * apply (fold_place_region_in_band (in_band st) m _ top _ _ _
                 (nth m (display_regions st) [])); auto.
        intros r Hc (ys & Hys & H01 & Hlo & Hhi).
        exists m, ys. rewrite <- Htop. repeat split; assumption.
Qed.

(** X16: when no ratio is negative, every row a pass leaves in the plot
    source or highlights is a line of a category, level between the box
    and the branch, and drawn inside that category's band: at least a
    tenth of the band's height below its top and above its bottom. *)
Theorem build_plot_data_in_band (st : Layout) (r : PlotRow) :
  (forall i, (0 <= nth i (ratios st) 0)%Q) ->
  In r (source (build_plot_data st) ++ searched_source (build_plot_data st)) ->
  in_band st r.
Proof.
  intros Hpos Hr.
  destruct (fold_place_category_in_band st Hpos (length (ratios st)))
    as (_ & _ & Hall).
  cbv zeta in Hall. fold (place_lines st) in Hall.
  unfold build_plot_data in Hr.
  set (p := place_lines st) in *.
  set (data := adjust_branches (pass_layout p) (plot_data p) Rightward) in *.
  assert (Hin : In r data).
  { apply (proj1 (proj2 (isolate_searched_facts (last_searched st) data))).
    destruct (isolate_searched (last_searched st) data) as [d s]. exact Hr. }
  apply list_elem_of_In, list_elem_of_lookup in Hin as [i Hi].
  destruct (adjust_branches_lookup _ _ _ _ _ Hi) as (r0 & Hr0 & ->).
  rewrite Forall_forall in Hall.
  destruct (Hall r0) as (j & ys & Hc & Hys & H01 & Hlo & Hhi).
  { apply list_elem_of_lookup. eauto. }
  destruct (resolved_fields (min_space_x (pass_layout p)) Rightward
              (run_below (drop (S i) (plot_data p))) r0) as (F1 & _ & _ & _ & F5).
  exists j, ys. rewrite F1, F5. repeat split; assumption.
Qed.

Lemma build_plot_data_in_band_witness : in_band demo_layout demo_row.
Proof.
  assert (Hpos : forall i, (0 <= nth i (ratios demo_layout) 0)%Q).
  { intros i.
    assert (E : ratios demo_layout = [3 # 10; 5 # 10; 2 # 10]%Q)
      by (vm_compute; reflexivity).
    rewrite E. destruct i as [|[|[|[|i]]]]; cbn; discriminate. }
  assert (Hin : In demo_row
                  (source (build_plot_data demo_layout)
                   ++ searched_source (build_plot_data demo_layout))).
  { vm_compute. left. reflexivity. }
  exact (build_plot_data_in_band demo_layout demo_row Hpos Hin).
Defined.

(** ** A search ends in a highlight *)

Lemma plotted_In st i e :
  (i < length (ratios st))%nat ->
  Qeq_bool (nth i (ratios st) 0%Q) 0 = false ->
  In e (nth i (display_regions st) []) ->
  In e (plotted st).
Proof.
  intros Hi Hr He. unfold plotted. apply in_flat_map. exists i.
  split; [apply in_seq; lia|]. rewrite Hr. exact He.
Qed.

Lemma entry_searched_col t k col q e :
  text_column t k = Ok col -> col e = q ->
  entry_searched (has_postcode t) q e = true.
Proof.
  unfold text_column, entry_searched. intros Hc <-.
  destruct k.
  - injection Hc as <-. rewrite String.eqb_refl. reflexivity.
  - destruct (has_postcode t); [|discriminate].
    injection Hc as <-. rewrite String.eqb_refl. apply orb_true_r.
Qed.

Lemma matching_In col q l e : In e (matching col q l) <-> In e l /\ col e = q.
Proof.
  unfold matching. rewrite filter_In, String.eqb_eq. reflexivity.
Qed.

Lemma highlight_exists st e :
  In e (plotted st) ->
  entry_searched (has_postcode (input_table st)) (last_searched st) e = true ->
  exists r, searched_source (build_plot_data st) = [r]
            /\ is_searched (last_searched st) r = true.
Proof.
  intros He Hs. unfold build_plot_data.
  set (p := place_lines st).
  set (data := adjust_branches (pass_layout p) (plot_data p) Rightward).
  pose proof (placed_searched st (last_searched st)) as Hdata.
  fold p in Hdata. fold data in Hdata.
  destruct (isolate_searched_facts (last_searched st) data) as (_ & _ & S & B & N).
  destruct (isolate_searched (last_searched st) data) as [d s]. cbn [fst snd] in *.
  cbn [searched_source set_sources].
  destruct s as [|r [|r' s]].
  - exfalso.
    apply list_elem_of_In, list_elem_of_lookup in He as [i Hi].
    destruct (Forall2_lookup_r _ _ _ _ _ Hdata Hi) as (r & Hr & E).
    rewrite (proj1 N eq_refl r) in E; [congruence|].
    apply list_elem_of_In, list_elem_of_lookup. eauto.
  - exists r. split; [reflexivity|]. apply S. left. reflexivity.
  - cbn in B. lia.
Qed.

Lemma init_ratio_nonzero c table st0 st i :
  init c table = Ok st0 -> frozen st = frozen st0 ->
  (i < num_categories st0)%nat -> pool st0 i <> [] ->
  (i < length (ratios st))%nat /\ Qeq_bool (nth i (ratios st) 0%Q) 0 = false.
Proof.
  intros Hinit Hf Hi Hne.
  assert (Hr : ratios st = ratios st0).
  { change (ratios (frozen st) = ratios (frozen st0)). rewrite Hf. reflexivity. }
  destruct (init_fields _ _ _ Hinit) as (_ & _ & _ & _ & Hpool & Hratios & Hrows).
  rewrite Hr. split; [rewrite Hratios, length_map, length_seq; exact Hi|].
  rewrite Hratios.
  rewrite (nth_map_seq (fun i => (inject_Z (Z.of_nat (length (pool st0 i)))
                                  / inject_Z (Z.of_nat (length (rows table))))%Q))
    by exact Hi.
  destruct (Qeq_bool _ 0) eqn:E; [|reflexivity].
  exfalso. apply Qeq_bool_iff in E.
  assert (Hlen : (0 < length (pool st0 i))%nat).
  { destruct (pool st0 i); [congruence | cbn; lia]. }
  assert (Hle : (length (pool st0 i) <= length (rows table))%nat).
  { rewrite (Hpool i Hi). apply filter_length_bound. }
  assert (H1 : (0 < inject_Z (Z.of_nat (length (pool st0 i))))%Q).
  { change 0%Q with (inject_Z 0). rewrite <- Zlt_Qlt. lia. }
  assert (H2 : (0 < inject_Z (Z.of_nat (length (rows table))))%Q).
  { change 0%Q with (inject_Z 0). rewrite <- Zlt_Qlt. lia. }
  assert (H3 : (0 < inject_Z (Z.of_nat (length (pool st0 i)))
                    / inject_Z (Z.of_nat (length (rows table))))%Q).
  { apply Qlt_shift_div_l; [exact H2|]. lra. }
  lra.
Qed.

(** X17: in any state of a session, a non-empty query whose lookup
    column exists and which equals that column's value in some row of
    some pool is answered with a highlight: the search raises nothing and
    the pass that follows highlights exactly one row, one that carries the
    query as its region name or postcode. *)
Theorem search_highlights_match (c : Cfg.t) (table : Table) (st0 : Layout)
    (evs : list Event) (query : string) (col : Entry -> string) (i : nat)
    (e : Entry) :
  init c table = Ok st0 ->
  let st := run evs st0 in
  query <> ""%string ->
  text_column (input_table st) (search_type_of query) = Ok col ->
  (i < num_categories st0)%nat ->
  In e (pool st0 i) ->
  col e = query ->
  snd (handle_search query st) = None
  /\ exists r, searched_source (fst (handle_search query st)) = [r]
               /\ is_searched query r = true.
Proof.
  intros Hinit st Hq Hcol Hi He Hce.
  destruct (run_frozen evs st0) as (Hf & Hlen & _). fold st in Hf, Hlen.
  specialize (Hlen (proj1 (init_display _ _ _ Hinit))).
  assert (Hn : num_categories st = num_categories st0).
  { change (num_categories (frozen st) = num_categories (frozen st0)).
    rewrite Hf. reflexivity. }
  set (s := set_last_searched query st).
  assert (Hfs : frozen s = frozen st0) by exact Hf.
  assert (Hps : forall j, pool s j = pool st0 j).
  { intros j. apply pool_frozen, Hfs. }
  destruct (search_categories_spec query (search_type_of query) col
              (seq 0 (num_categories s)) s Hcol Hq) as [Herr Hcases].
  unfold handle_search, add_searched_region.
  fold (search_type_of query). fold s.
  destruct (search_categories query (search_type_of query)
              (seq 0 (num_categories s)) s) as [s' err] eqn:Es.
  cbn [fst snd] in *. subst err. cbn [fst snd].
  split; [reflexivity|].
  assert (Hgoal : exists j e', (j < num_categories st0)%nat
                    /\ pool st0 j <> []
                    /\ In e' (nth j (display_regions s') [])
                    /\ col e' = query
                    /\ frozen s' = frozen st0
                    /\ last_searched s' = query).
  { destruct Hcases as [[-> Hnone]|(l1 & j & l2 & El & _ & Hm & _ & ->)].
    - destruct (Hnone i) as [H|H].
      + apply in_seq. change (num_categories s) with (num_categories st). lia.
      + exfalso. rewrite Hps in H.
        assert (Hin : In e (matching col query (pool st0 i)))
          by (apply matching_In; auto).
        rewrite H in Hin. destruct Hin.
      + destruct (matching col query (nth i (display_regions s) [])) as [|e' m] eqn:Em;
          [congruence|].
        assert (Hin : In e' (matching col query (nth i (display_regions s) [])))
          by (rewrite Em; left; reflexivity).
        apply matching_In in Hin as [Hin Hc'].
        exists i, e'. repeat split; auto.
        intros Hnil. rewrite Hnil in He. destruct He.
    - assert (Hj : (j < num_categories st0)%nat).
      { destruct (seq_split_lt _ _ _ _ El) as [Hj _].
        change (num_categories s) with (num_categories st) in Hj. lia. }
      destruct (matching col query (pool s j)) as [|e' m] eqn:Em; [congruence|].
      assert (Hin : In e' (matching col query (pool s j)))
        by (rewrite Em; left; reflexivity).
      apply matching_In in Hin as [Hin Hc'].
      exists j, e'. split; [exact Hj|]. split.
      { rewrite <- Hps. intros Hnil. rewrite Hnil in Hin. destruct Hin. }
      split.
      { cbn [display_regions set_display_regions]. rewrite nth_insert.
        destruct (decide _) as [_|Hd].
        - unfold injected. apply sort_values_In, in_or_app. right.
          rewrite Em. left. reflexivity.
        - exfalso. apply Hd. split; [reflexivity|].
          change (display_regions s) with (display_regions st). lia. }
      split; [exact Hc'|]. split; [exact Hfs | reflexivity]. }
  destruct Hgoal as (j & e' & Hj & Hpj & Hin & Hc' & Hf' & Hl').
  destruct (init_ratio_nonzero _ _ _ s' j Hinit Hf' Hj Hpj) as [Hjr Hnz].
  assert (Ht : input_table s' = input_table st).
  { change (input_table (frozen s') = input_table (frozen st)).
    rewrite Hf', Hf. reflexivity. }
  destruct (highlight_exists s' e') as (r & Hr & Hs).
  - apply (plotted_In s' j); assumption.
  - rewrite Hl', Ht.
    apply (entry_searched_col (input_table st) (search_type_of query) col);
      assumption.
  - exists r. rewrite Hl' in Hs. split; assumption.
Qed.

Lemma search_highlights_match_witness :
  init demo_cfg demo_table = Ok demo_layout
  /\ snd (handle_search "1002" (run [] demo_layout)) = None.
Proof.
  assert (H : init demo_cfg demo_table = Ok demo_layout)
    by (vm_compute; reflexivity).
  assert (Hc : text_column (input_table (run [] demo_layout))
                 (search_type_of "1002") = Ok postcode)
    by (vm_compute; reflexivity).
  assert (Hi : (1 < num_categories demo_layout)%nat)
    by (vm_compute; repeat constructor).
  assert (He : In (entry "c" "1002" 3 1 0) (pool demo_layout 1)).
  { vm_compute. left. reflexivity. }
  exact (conj H (proj1 (search_highlights_match demo_cfg demo_table demo_layout
                          [] "1002" postcode 1 (entry "c" "1002" 3 1 0)
                          H ltac:(discriminate) Hc Hi He eq_refl))).
Defined.
